(** * ONIVA back end: the dispatch / booking-request engine

    A shallow embedding of [dispatch.service.js] (class [DispatchService]),
    of the [Driver] and [Trip] models and of the routes that call them,
    together with the PostgreSQL tables they read and write
    ([database/schema.sql]).

    Conventions of the embedding.
    - A table that the code addresses through its primary key only
      ([booking_requests], [trips]) is a finite map from the [id] column to
      the row; the [SERIAL] sequence of [booking_requests] is a counter.
    - [drivers] and [users] are only scanned (a join and a filter), so they
      are lists of rows.
    - [NOW()] and [Date.now()] read one clock, in milliseconds.
    - The coordinates and the rating of a driver are real numbers; the
      modelled code stores and compares them and computes nothing from
      them.
    - The key of a stored row is a value of its INTEGER column.  An id
      that arrives as a parameter may lie outside INTEGER; it then matches
      no row, and where the model finds no row for such an id the error
      is the one PostgreSQL raises when it refuses the parameter
      ([numeric_value_out_of_range]).
    - [logger] calls have no effect on the store and are left out.
    - Every query the dispatch flow awaits is a suspension point: before
      the query runs, time passes and other actors (drivers answering,
      the client cancelling) act on the store, and the query itself may
      be refused by the store.  One such point is a [turn]; a flow runs
      against a list of turns and is [Suspended] when the list ends while
      it is still waiting.
    - The callbacks of the poll timer run one after the other; how much
      time lies between two of them is part of the schedule.
    - [acceptBooking], [rejectBooking] and [cancelTrip], called by other
      actors, run against a store that answers.
    - The candidate query of [Driver.getNearestDrivers] has a HAVING
      clause and no GROUP BY, while its select list names plain columns
      of [drivers] and [users]: PostgreSQL takes such a query as a
      grouped one and rejects it when it analyses the statement, before
      any row is read and whatever the parameters are
      ([grouping_error]). *)

From stdpp Require Import base option list sorting gmap strings.
From Stdlib Require Import ZArith Lia Reals Lra.

Local Open Scope Z_scope.

(** ** Rows of the tables *)

(** [booking_requests.status], constrained by the CHECK of the schema. *)
Inductive request_status := pending | accepted | rejected | expired.

(** [trips.status], constrained by the CHECK of the schema. *)
Inductive trip_status :=
  | trip_pending | trip_accepted | trip_waiting_for_pickup
  | trip_in_progress | trip_completed | trip_cancelled.

Global Instance request_status_eq_dec : EqDecision request_status.
Proof. solve_decision. Defined.

Global Instance trip_status_eq_dec : EqDecision trip_status.
Proof. solve_decision. Defined.

Record booking_request := BookingRequest {
  br_id : Z;
  br_trip_id : Z;
  br_driver_id : Z;
  br_status : request_status;
  br_rejection_reason : option string;
  br_accepted_at : option Z;
  br_rejected_at : option Z;
  br_expires_at : Z;
  br_created_at : Z
}.

(** The columns of [trips] that the dispatch engine and the cancellation
    touch; the pricing, address and passcode columns are never read or
    written by the modelled code. *)
Record trip := Trip {
  trip_id : Z;
  trip_client_id : Z;
  trip_driver_id : option Z;
  trip_state : trip_status;
  trip_cancellation_reason : option string;
  trip_updated_at : Z
}.

Inductive account_status := active | inactive | suspended_account.
Inductive verification := v_pending | v_approved | v_rejected | v_suspended.

Global Instance account_status_eq_dec : EqDecision account_status.
Proof. solve_decision. Defined.

Global Instance verification_eq_dec : EqDecision verification.
Proof. solve_decision. Defined.

Record user_row := UserRow {
  u_id : Z;
  u_phone : string;
  u_full_name : string;
  u_status : account_status
}.

Record driver_row := DriverRow {
  d_id : Z;
  d_user_id : Z;
  d_region : string;
  d_verification_status : verification;
  d_is_online : bool;
  d_rating : R;
  d_current_latitude : option R;
  d_current_longitude : option R
}.

(** The database and the clock. *)
Record world := World {
  booking_requests : gmap Z booking_request;
  booking_requests_seq : Z;
  trips : gmap Z trip;
  drivers : list driver_row;
  users : list user_row;
  now : Z
}.

Definition with_requests (w : world) (t : gmap Z booking_request) : world :=
  World t (booking_requests_seq w) (trips w) (drivers w) (users w) (now w).

Definition with_trips (w : world) (t : gmap Z trip) : world :=
  World (booking_requests w) (booking_requests_seq w) t (drivers w) (users w) (now w).

Definition with_now (w : world) (t : Z) : world :=
  World (booking_requests w) (booking_requests_seq w) (trips w) (drivers w) (users w) t.

(** What an [async] function hands to its caller. *)
Inductive completion (A : Type) :=
  | Returned (a : A)
  | Threw (message : string).
Arguments Returned {A} a.
Arguments Threw {A} message.

(** ** Errors of the database

    The errors that PostgreSQL raises are named by their SQLSTATE; the
    functions of the models and of the service log them in their [catch]
    and throw them on. *)

(** The values of an INTEGER column. *)
Definition int4 (n : Z) : bool := bool_decide (-2147483648 <= n <= 2147483647).

(** A parameter compared with an INTEGER column that is not in [int4]. *)
Definition numeric_value_out_of_range : string :=
  "22003: value is out of range for type integer".

(** A column outside any aggregate in the select list of a grouped
    query. *)
Definition grouping_error : string :=
  "42803: column must appear in the GROUP BY clause or be used in an aggregate function".

(** What a guard of the code throws when the statement matched no row and
    its id parameters are [ids]: the first id outside INTEGER has made
    PostgreSQL refuse the statement; with every id in INTEGER the guard
    throws its own [message]. *)
Definition no_row (ids : list Z) (message : string) : string :=
  if forallb int4 ids then message else numeric_value_out_of_range.

(** ** The statements of [DispatchService] on [booking_requests] *)

Definition ACCEPT_TIMEOUT : Z := 60000.
Definition MAX_ASSIGNMENT_ATTEMPTS : nat := 3.

(** [UPDATE booking_requests SET ... WHERE id = $id AND driver_id = $driver
    RETURNING *]: the row, if any, whose key is [id] and whose driver is
    [driver] is rewritten by [set]; the rewritten rows are returned. *)
Definition update_request_of_driver (id driver : Z)
    (set : booking_request -> booking_request) (w : world)
    : list booking_request * world :=
  match booking_requests w !! id with
  | Some r =>
      if decide (br_driver_id r = driver)
      then ([set r], with_requests w (<[id := set r]> (booking_requests w)))
      else ([], w)
  | None => ([], w)
  end.

Definition set_accepted (t : Z) (r : booking_request) : booking_request :=
  BookingRequest (br_id r) (br_trip_id r) (br_driver_id r) accepted
    (br_rejection_reason r) (Some t) (br_rejected_at r)
    (br_expires_at r) (br_created_at r).

Definition set_rejected (reason : string) (t : Z) (r : booking_request)
    : booking_request :=
  BookingRequest (br_id r) (br_trip_id r) (br_driver_id r) rejected
    (Some reason) (br_accepted_at r) (Some t)
    (br_expires_at r) (br_created_at r).

Definition set_status (s : request_status) (r : booking_request)
    : booking_request :=
  BookingRequest (br_id r) (br_trip_id r) (br_driver_id r) s
    (br_rejection_reason r) (br_accepted_at r) (br_rejected_at r)
    (br_expires_at r) (br_created_at r).

(** [UPDATE trips SET driver_id = $1, status = $2, updated_at = NOW()
    WHERE id = $3]. *)
Definition bind_driver (driver : Z) (t : Z) (tr : trip) : trip :=
  Trip (trip_id tr) (trip_client_id tr) (Some driver) trip_accepted
    (trip_cancellation_reason tr) t.

(** [DispatchService.acceptBooking]. *)
Definition acceptBooking (requestId driverId : Z) (w : world)
    : completion booking_request * world :=
  let '(rows, w1) :=
    update_request_of_driver requestId driverId (set_accepted (now w)) w in
  match rows with
  | [] =>
      (Threw (no_row [requestId; driverId]
                "Booking request not found or invalid driver"), w1)
  | request :: _ =>
      let w2 := with_trips w1
        (alter (bind_driver driverId (now w1)) (br_trip_id request) (trips w1)) in
      (Returned request, w2)
  end.

(** [DispatchService.rejectBooking]. *)
Definition rejectBooking (requestId driverId : Z) (reason : string) (w : world)
    : completion booking_request * world :=
  let '(rows, w1) :=
    update_request_of_driver requestId driverId (set_rejected reason (now w)) w in
  match rows with
  | [] => (Threw (no_row [requestId; driverId] "Booking request not found"), w1)
  | request :: _ => (Returned request, w1)
  end.

(** [Trip.cancelTrip]: [UPDATE trips SET status = 'cancelled',
    cancellation_reason = $1, updated_at = NOW()
    WHERE id = $2 AND status != 'completed' RETURNING *]. *)
Definition cancelTrip (tripId : Z) (reason : string) (w : world)
    : completion trip * world :=
  match trips w !! tripId with
  | Some tr =>
      if decide (trip_state tr = trip_completed)
      then (Threw "Cannot cancel completed trip", w)
      else
        let tr' := Trip (trip_id tr) (trip_client_id tr) (trip_driver_id tr)
                     trip_cancelled (Some reason) (now w) in
        (Returned tr', with_trips w (<[tripId := tr']> (trips w)))
  | None => (Threw (no_row [tripId] "Cannot cancel completed trip"), w)
  end.

(** ** [Driver.getNearestDrivers] *)

(** A row of the result: [d.*, u.phone, u.full_name, distance]. *)
Record candidate := Candidate {
  c_driver : driver_row;
  c_phone : string;
  c_full_name : string;
  c_distance : R
}.

Definition c_user_id (c : candidate) : Z := d_user_id (c_driver c).

(** [static async getNearestDrivers(latitude, longitude, region,
    maxDistance)]: the statement

    [SELECT d.*, u.phone, u.full_name, (...) AS distance
     FROM drivers d JOIN users u ON d.user_id = u.id
     WHERE d.region = $3 AND ... HAVING (...) <= $4 ORDER BY distance ASC]

    is rejected by PostgreSQL for every parameter array: HAVING makes the
    query a grouped one, and [d.id], the first column of the select list,
    is neither grouped nor inside an aggregate.  The promise of [query]
    rejects, the [catch] logs the error and throws it on. *)
Definition getNearestDrivers (latitude longitude : R) (region : string)
    (maxDistance : R) (w : world) : completion (list candidate) :=
  Threw grouping_error.

(** ** The environment of a dispatch flow *)

Inductive event :=
  | DriverAccepts (requestId driverId : Z)
  | DriverRejects (requestId driverId : Z) (reason : string)
  | ClientCancels (tripId : Z) (reason : string).

Definition apply_event (w : world) (e : event) : world :=
  match e with
  | DriverAccepts requestId driverId => snd (acceptBooking requestId driverId w)
  | DriverRejects requestId driverId reason =>
      snd (rejectBooking requestId driverId reason w)
  | ClientCancels tripId reason => snd (cancelTrip tripId reason w)
  end.

(** One suspension point of the flow: [turn_elapsed] milliseconds pass,
    the [turn_events] happen, and then the awaited query runs, unless the
    store refuses it ([turn_refused]: the promise of [query] rejects). *)
Record turn := Turn {
  turn_elapsed : Z;
  turn_events : list event;
  turn_refused : bool
}.

Definition enter (t : turn) (w : world) : world :=
  foldl apply_event (with_now w (now w + turn_elapsed t)) (turn_events t).

Inductive run (A : Type) :=
  | Resolved (a : A) (w : world) (rest : list turn)
  | Suspended (w : world).
Arguments Resolved {A} a w rest.
Arguments Suspended {A} w.

Definition world_of {A} (r : run A) : world :=
  match r with
  | Resolved _ w _ => w
  | Suspended w => w
  end.

(** ** The dispatch flow *)

(** [INSERT INTO booking_requests (trip_id, driver_id, status, expires_at,
    created_at) VALUES ($1, $2, 'pending', NOW() + INTERVAL '1 minute',
    NOW()) RETURNING *].  An id outside INTEGER is refused before the
    statement runs.  Otherwise the sequence advances whether or not the
    row is kept; the primary key and the two foreign keys of the schema
    are checked. *)
Definition insert_request (tripId driverId : Z) (w : world)
    : completion booking_request * world :=
  let id := booking_requests_seq w in
  let w1 := World (booking_requests w) (id + 1) (trips w) (drivers w)
              (users w) (now w) in
  if negb (int4 tripId && int4 driverId)
  then (Threw numeric_value_out_of_range, w)
  else
    match booking_requests w !! id with
    | Some _ => (Threw "duplicate key value violates unique constraint", w1)
    | None =>
        if bool_decide (is_Some (trips w !! tripId))
           && bool_decide (Exists (λ d, d_user_id d = driverId) (drivers w))
        then
          let request := BookingRequest id tripId driverId pending None None None
                           (now w + 60000) (now w) in
          (Returned request, with_requests w1 (<[id := request]> (booking_requests w)))
        else (Threw "violates foreign key constraint", w1)
    end.

(** [UPDATE booking_requests SET status = 'expired' WHERE id = $2]. *)
Definition expire_request (requestId : Z) (w : world) : world :=
  with_requests w (alter (set_status expired) requestId (booking_requests w)).

(** [DispatchService.waitForDriverResponse]: each callback of the interval
    timer awaits the SELECT, and past the deadline the UPDATE; a refused
    query is caught and logged, and the timer keeps running. *)
Fixpoint waitForDriverResponse (requestId timeout startTime : Z)
    (sched : list turn) (w : world) : run bool :=
  match sched with
  | [] => Suspended w
  | t :: rest =>
      let w1 := enter t w in
      if turn_refused t
      then waitForDriverResponse requestId timeout startTime rest w1
      else
        match booking_requests w1 !! requestId with
        | None => Resolved false w1 rest
        | Some request =>
            match br_status request with
            | accepted => Resolved true w1 rest
            | rejected => Resolved false w1 rest
            | _ =>
                if bool_decide (now w1 - startTime > timeout)
                then
                  match rest with
                  | [] => Suspended w1
                  | u :: rest' =>
                      let w2 := enter u w1 in
                      if turn_refused u
                      then waitForDriverResponse requestId timeout startTime rest' w2
                      else Resolved false (expire_request requestId w2) rest'
                  end
                else waitForDriverResponse requestId timeout startTime rest w1
            end
        end
  end.

(** [DispatchService.sendAssignmentRequest]. *)
Definition sendAssignmentRequest (tripId driverId : Z)
    (sched : list turn) (w : world) : run bool :=
  match sched with
  | [] => Suspended w
  | t :: rest =>
      let w1 := enter t w in
      if turn_refused t then Resolved false w1 rest
      else
        match insert_request tripId driverId w1 with
        | (Threw _, w2) => Resolved false w2 rest
        | (Returned request, w2) =>
            waitForDriverResponse (br_id request) ACCEPT_TIMEOUT (now w2) rest w2
        end
  end.

Record trip_data := TripData {
  tripId : Z;
  pickupLat : R;
  pickupLng : R;
  region : string;
  maxDistance : option R
}.

(** The object [findAndAssignDriver] returns. *)
Record outcome := Outcome {
  success : bool;
  message : string;
  driverId : option Z;
  driverName : option string;
  driverRating : option R;
  distance : option R
}.

Definition no_drivers_available : outcome :=
  Outcome false "No drivers available in your area" None None None None.

Definition no_driver_accepted : outcome :=
  Outcome false "Unable to find available driver. Please try again."
    None None None None.

Definition driver_assigned (driver : candidate) : outcome :=
  Outcome true "Driver assigned successfully" (Some (c_user_id driver))
    (Some (c_full_name driver)) (Some (d_rating (c_driver driver)))
    (Some (c_distance driver)).

(** The body of the [for] loop, over the values [i] takes. *)
Fixpoint attempt_each (tripId : Z) (availableDrivers : list candidate)
    (indices : list nat) (sched : list turn) (w : world)
    : run (completion outcome) :=
  match indices with
  | [] => Resolved (Returned no_driver_accepted) w sched
  | i :: later =>
      match availableDrivers !! i with
      | None => Resolved (Threw "Cannot read properties of undefined") w sched
      | Some driver =>
          match sendAssignmentRequest tripId (c_user_id driver) sched w with
          | Suspended w' => Suspended w'
          | Resolved true w' rest => Resolved (Returned (driver_assigned driver)) w' rest
          | Resolved false w' rest =>
              attempt_each tripId availableDrivers later rest w'
          end
      end
  end.

(** [DispatchService.findAndAssignDriver]; note the order in which the
    pickup coordinates are handed to [Driver.getNearestDrivers].  An error
    of the candidate query reaches the [catch], which logs it and throws
    it on. *)
Definition findAndAssignDriver (tripData : trip_data)
    (sched : list turn) (w : world) : run (completion outcome) :=
  match sched with
  | [] => Suspended w
  | t :: rest =>
      let w1 := enter t w in
      if turn_refused t then Resolved (Threw "query failed") w1 rest
      else
        match
          getNearestDrivers (pickupLng tripData) (pickupLat tripData)
            (region tripData) (default 5%R (maxDistance tripData)) w1
        with
        | Threw error => Resolved (Threw error) w1 rest
        | Returned availableDrivers =>
            if bool_decide (length availableDrivers = 0%nat)
            then Resolved (Returned no_drivers_available) w1 rest
            else
              attempt_each (tripId tripData) availableDrivers
                (seq 0 (Nat.min (length availableDrivers) MAX_ASSIGNMENT_ATTEMPTS))
                rest w1
        end
  end.

(** * The rest of the services *)

(** ** [DispatchService.getPendingRequests] *)

(** [ORDER BY br.created_at DESC]; rows created at the same instant keep
    their scan order. *)
Fixpoint insert_by_created_at (x : booking_request * trip)
    (l : list (booking_request * trip)) : list (booking_request * trip) :=
  match l with
  | [] => [x]
  | y :: l' =>
      if bool_decide (br_created_at (fst y) <= br_created_at (fst x))
      then x :: l
      else y :: insert_by_created_at x l'
  end.

(** [FROM booking_requests br JOIN trips t ON br.trip_id = t.id
    WHERE br.driver_id = $1 AND br.status = 'pending'
    AND br.expires_at > NOW()].  A row of the result is the request with
    the trip it joins; of the trip's columns the query selects, the
    addresses, the price and the estimates lie outside the columns of
    [trip] kept here. *)
Definition pending_rows (driverId : Z) (w : world)
    : list (booking_request * trip) :=
  kv ← map_to_list (booking_requests w);
  match trips w !! br_trip_id (snd kv) with
  | Some t =>
      if bool_decide (br_driver_id (snd kv) = driverId)
         && bool_decide (br_status (snd kv) = pending)
         && bool_decide (br_expires_at (snd kv) > now w)
      then [(snd kv, t)]
      else []
  | None => []
  end.

Definition getPendingRequests (driverId : Z) (w : world)
    : list (booking_request * trip) :=
  foldr insert_by_created_at [] (pending_rows driverId w).

(** ** The [Driver] model *)

Definition with_drivers (w : world) (l : list driver_row) : world :=
  World (booking_requests w) (booking_requests_seq w) (trips w) l (users w) (now w).

(** [driver_suspensions], with its sequence. *)
Inductive suspension_status := suspension_active | suspension_appealed | suspension_lifted.

Record suspension_row := SuspensionRow {
  s_id : Z;
  s_driver_id : Z;
  s_reason : string;
  s_suspended_by : option Z;
  s_status : suspension_status;
  s_created_at : Z;
  s_lifted_at : option Z
}.

(** The store with the table that only the back office writes. *)
Record back_office := BackOffice {
  office_world : world;
  driver_suspensions : list suspension_row;
  driver_suspensions_seq : Z
}.

Module Driver.

(** [SELECT d.*, u.phone, u.full_name, u.email, u.language, u.status
    FROM drivers d JOIN users u ON d.user_id = u.id WHERE d.user_id = $1];
    [result.rows[0] || null]. *)
Definition findById (driverId : Z) (w : world) : option (driver_row * user_row) :=
  head (d ← drivers w;
        u ← users w;
        if bool_decide (d_user_id d = u_id u)
           && bool_decide (d_user_id d = driverId)
        then [(d, u)] else []).

Definition set_verification_status (status : verification) (d : driver_row)
    : driver_row :=
  DriverRow (d_id d) (d_user_id d) (d_region d) status
    (d_is_online d) (d_rating d) (d_current_latitude d) (d_current_longitude d).

(** [UPDATE drivers SET ... WHERE <cond>]: the rewritten table and the
    rewritten rows. *)
Definition update_where (cond : driver_row -> bool)
    (set : driver_row -> driver_row) (l : list driver_row)
    : list driver_row * list driver_row :=
  ((fun d => if cond d then set d else d) <$> l,
   set <$> List.filter cond l).

(** [UPDATE drivers SET verification_status = $1, updated_at = NOW()
    WHERE id = $2 RETURNING *]; [result.rows[0] || null]. *)
Definition updateVerificationStatus (driverId : Z) (status : verification)
    (w : world) : option driver_row * world :=
  let '(table, rows) :=
    update_where (fun d => bool_decide (d_id d = driverId))
      (set_verification_status status) (drivers w) in
  (head rows, with_drivers w table).

(** [Driver.suspend]: inside one transaction, the UPDATE of the driver
    and the INSERT of the reason.  For a user id that no driver row
    carries the UPDATE rewrites nothing, the INSERT draws its [id] from
    the sequence and is then refused by the foreign key of
    [driver_suspensions.driver_id]; the transaction is rolled back, the
    sequence is not.  A user id outside INTEGER is refused at the UPDATE
    already, before the sequence is touched. *)
Definition suspend (driverId : Z) (reason : string) (b : back_office)
    : completion bool * back_office :=
  let w := office_world b in
  let '(table, _) :=
    update_where (fun d => bool_decide (d_user_id d = driverId))
      (set_verification_status v_suspended) (drivers w) in
  if bool_decide (Exists (λ d, d_user_id d = driverId) table)
  then
    let row := SuspensionRow (driver_suspensions_seq b) driverId reason None
                 suspension_active (now w) None in
    (Returned true,
     BackOffice (with_drivers w table) (driver_suspensions b ++ [row])
       (driver_suspensions_seq b + 1))
  else if int4 driverId
  then
    (Threw "23503: violates foreign key constraint",
     BackOffice w (driver_suspensions b) (driver_suspensions_seq b + 1))
  else (Threw numeric_value_out_of_range, b).

End Driver.

(** ** The [Trip] model and the client's cancellation route *)

Module Trip.

(** [SELECT t.*, ... FROM trips t JOIN users c ON t.client_id = c.id
    LEFT JOIN drivers d ON t.driver_id = d.user_id WHERE t.id = $1];
    [result.rows[0] || null]. *)
Definition findById (tripId : Z) (w : world) : completion (option trip) :=
  match trips w !! tripId with
  | Some t =>
      if bool_decide (Exists (λ c, u_id c = trip_client_id t) (users w))
      then Returned (Some t) else Returned None
  | None =>
      if int4 tripId then Returned None else Threw numeric_value_out_of_range
  end.

End Trip.

(** What a route handler answers: the JSON body of a success, or the
    [AppError] it throws, or another error passed to the error handler
    (status 500). *)
Inductive response (A : Type) :=
  | Success (data : A)
  | AppError (message : string) (statusCode : Z)
  | ServerError (message : string).
Arguments Success {A} data.
Arguments AppError {A} message statusCode.
Arguments ServerError {A} message.

(** [x || fallback] on an optional string of the request body. *)
Definition or_default (x : option string) (fallback : string) : string :=
  match x with
  | Some s => if bool_decide (s = "") then fallback else s
  | None => fallback
  end.

(** [POST /api/client/trips/:tripId/cancel], for the authenticated user
    [userId].  The handler awaits [Trip.findById] and then
    [Trip.cancelTrip]; [meanwhile] is what the other requests have done to
    the store between the two. *)
Definition cancel_trip_route_between (meanwhile : world -> world)
    (userId tripId : Z) (reason : option string) (w : world)
    : response trip * world :=
  match Trip.findById tripId w with
  | Threw error => (ServerError error, w)
  | Returned None => (AppError "Trip not found or unauthorized" 404, w)
  | Returned (Some t) =>
      if bool_decide (trip_client_id t = userId)
      then
        if bool_decide (trip_state t = trip_completed)
           || bool_decide (trip_state t = trip_cancelled)
        then (AppError "Cannot cancel this trip" 400, w)
        else
          match
            cancelTrip tripId (or_default reason "Cancelled by client") (meanwhile w)
          with
          | (Returned cancelled, w') => (Success cancelled, w')
          | (Threw message, w') => (ServerError message, w')
          end
      else (AppError "Trip not found or unauthorized" 404, w)
  end.

(** The route while no other request writes the store. *)
Definition cancel_trip_route (userId tripId : Z) (reason : option string)
    (w : world) : response trip * world :=
  cancel_trip_route_between (fun w => w) userId tripId reason w.

(** ** The socket service: the registry of connections *)

(** [activeConnections] (user id to socket id), the [userId] property of
    each connected socket, and the sockets that are connected. *)
Record hub := Hub {
  activeConnections : gmap Z string;
  socket_userId : gmap string Z;
  connected : gset string
}.

(** [io.on('connection', ...)]. *)
Definition on_connection (socketId : string) (h : hub) : hub :=
  Hub (activeConnections h) (delete socketId (socket_userId h))
      ({[socketId]} ∪ connected h).

(** [socket.on('auth', ...)]. *)
Definition on_auth (socketId : string) (userId : Z) (h : hub) : hub :=
  Hub (<[userId := socketId]> (activeConnections h))
      (<[socketId := userId]> (socket_userId h))
      (connected h).

(** [socket.on('disconnect', ...)]: [activeConnections.delete(socket.userId)]. *)
Definition on_disconnect (socketId : string) (h : hub) : hub :=
  Hub (match socket_userId h !! socketId with
       | Some userId => delete userId (activeConnections h)
       | None => activeConnections h
       end)
      (delete socketId (socket_userId h))
      (connected h ∖ {[socketId]}).

(** [notifyDriver] and [notifyClient]: the socket the event is emitted
    to, if any. *)
Definition notifyDriver (driverId : Z) (h : hub) : option string :=
  match activeConnections h !! driverId with
  | Some socketId => if bool_decide (socketId = "") then None else Some socketId
  | None => None
  end.

Definition notifyClient (clientId : Z) (h : hub) : option string :=
  match activeConnections h !! clientId with
  | Some socketId => if bool_decide (socketId = "") then None else Some socketId
  | None => None
  end.

(** ** Starting and ending a trip *)

(** The [otp_code] column of [trips], kept beside the projection of the
    table: a trip without an entry has [otp_code] NULL.  Of the other
    columns that the functions below write ([otp_verified], the actual
    distance, duration and price, [completed_at]) nothing is read back
    by the modelled code. *)
Record trip_desk := TripDesk {
  desk_world : world;
  otp_code : gmap Z string
}.

Definition set_trip_state (status : trip_status) (at_time : Z) (t : trip) : trip :=
  Trip (trip_id t) (trip_client_id t) (trip_driver_id t) status
       (trip_cancellation_reason t) at_time.

(** [Trip.updateStatus]: [UPDATE trips SET status = $1, updated_at = NOW()
    WHERE id = $2 RETURNING *]; [result.rows[0] || null]. *)
Definition updateStatus (tripId : Z) (status : trip_status) (w : world)
    : completion (option trip) * world :=
  match trips w !! tripId with
  | Some t =>
      let t' := set_trip_state status (now w) t in
      (Returned (Some t'), with_trips w (<[tripId := t']> (trips w)))
  | None =>
      (if int4 tripId then Returned None else Threw numeric_value_out_of_range, w)
  end.

(** [Trip.recordOTPVerification]: [UPDATE trips SET otp_verified = true,
    otp_verified_at = NOW(), status = 'in_progress'
    WHERE id = $1 AND otp_code = $2 RETURNING *]; the trigger
    [update_trips_updated_at] sets [updated_at].  No row: it throws. *)
Definition recordOTPVerification (tripId : Z) (otp : string) (k : trip_desk)
    : completion trip * trip_desk :=
  let w := desk_world k in
  match trips w !! tripId with
  | Some t =>
      if bool_decide (otp_code k !! tripId = Some otp)
      then
        let t' := set_trip_state trip_in_progress (now w) t in
        (Returned t', TripDesk (with_trips w (<[tripId := t']> (trips w))) (otp_code k))
      else (Threw "Invalid OTP or trip not found", k)
  | None => (Threw (no_row [tripId] "Invalid OTP or trip not found"), k)
  end.

(** [Trip.completeTrip]: [UPDATE trips SET status = 'completed', ...,
    updated_at = NOW() WHERE id = $4 RETURNING *] in a transaction. *)
Definition completeTrip (tripId : Z) (w : world) : completion trip * world :=
  match trips w !! tripId with
  | Some t =>
      let t' := set_trip_state trip_completed (now w) t in
      (Returned t', with_trips w (<[tripId := t']> (trips w)))
  | None => (Threw (no_row [tripId] "Trip not found"), w)
  end.

(** [!otp] on the [otp] of the request body. *)
Definition missing (otp : option string) : bool :=
  match otp with
  | Some s => bool_decide (s = "")
  | None => true
  end.

(** [POST /api/driver/trips/:tripId/start], for the authenticated user
    [userId]. *)
Definition start_trip_route (userId tripId : Z) (otp : option string)
    (k : trip_desk) : response (option trip) * trip_desk :=
  if missing otp then (AppError "OTP is required" 400, k)
  else
    match Trip.findById tripId (desk_world k) with
    | Threw error => (ServerError error, k)
    | Returned None => (AppError "Trip not found or unauthorized" 404, k)
    | Returned (Some t) =>
        if bool_decide (trip_driver_id t = Some userId)
        then
          if bool_decide (otp_code k !! tripId = otp)
          then
            match updateStatus tripId trip_in_progress (desk_world k) with
            | (Returned updated, w') => (Success updated, TripDesk w' (otp_code k))
            | (Threw error, w') => (ServerError error, TripDesk w' (otp_code k))
            end
          else (AppError "Invalid OTP" 400, k)
        else (AppError "Trip not found or unauthorized" 404, k)
    end.

(** [POST /api/driver/trips/:tripId/end], for the authenticated user
    [userId]. *)
Definition end_trip_route (userId tripId : Z) (w : world)
    : response trip * world :=
  match Trip.findById tripId w with
  | Threw error => (ServerError error, w)
  | Returned None => (AppError "Trip not found or unauthorized" 404, w)
  | Returned (Some t) =>
      if bool_decide (trip_driver_id t = Some userId)
      then
        if bool_decide (trip_state t = trip_in_progress)
        then
          match completeTrip tripId w with
          | (Returned completed, w') => (Success completed, w')
          | (Threw message, w') => (ServerError message, w')
          end
        else (AppError "Trip is not in progress" 400, w)
      else (AppError "Trip not found or unauthorized" 404, w)
  end.

(** [POST /api/client/trips/:tripId/start-with-otp]: the handler never
    reads [req.userId]; an error of [Trip.recordOTPVerification] is not an
    [AppError] and reaches the error handler as it is. *)
Definition start_with_otp_route (tripId : Z) (otp : option string)
    (k : trip_desk) : response trip * trip_desk :=
  match otp with
  | Some code =>
      if bool_decide (code = "") then (AppError "OTP is required" 400, k)
      else
        match recordOTPVerification tripId code k with
        | (Returned t, k') => (Success t, k')
        | (Threw message, k') => (ServerError message, k')
        end
  | None => (AppError "OTP is required" 400, k)
  end.

(** * Vocabulary of the properties *)

(** The status a request has in a world, if the request exists. *)
Definition status_of (w : world) (id : Z) : option request_status :=
  br_status <$> booking_requests w !! id.

(** A request that exists and is no longer [pending]. *)
Definition settled (w : world) (id : Z) : Prop :=
  exists s, status_of w id = Some s /\ s <> pending.

(** ** Concurrent invocations on one request

    Each transition writes the request with a single UPDATE statement, so
    concurrent invocations act on the request in some serial order of
    these statements; [invoke_all] runs one such order. *)

Inductive invocation :=
  | InvokeAccept
  | InvokeReject (reason : string).

Definition invoke (requestId driverId : Z) (i : invocation) (w : world)
    : completion booking_request * world :=
  match i with
  | InvokeAccept => acceptBooking requestId driverId w
  | InvokeReject reason => rejectBooking requestId driverId reason w
  end.

Definition written_status (i : invocation) : request_status :=
  match i with
  | InvokeAccept => accepted
  | InvokeReject _ => rejected
  end.

Fixpoint invoke_all (requestId driverId : Z) (l : list invocation) (w : world)
    : list (completion booking_request) * world :=
  match l with
  | [] => ([], w)
  | i :: l' =>
      let '(c, w1) := invoke requestId driverId i w in
      let '(cs, w2) := invoke_all requestId driverId l' w1 in
      (c :: cs, w2)
  end.

Definition succeeded {A} (c : completion A) : bool :=
  match c with
  | Returned _ => true
  | Threw _ => false
  end.

(** ** What the environment and the poll can do to the requests

    [settles w w'] relates a world to a later one in which no request was
    created or removed, every request kept its trip and its driver, and
    no request that had left [pending] is [pending] again. *)

Definition row_settles (o o' : option booking_request) : Prop :=
  match o, o' with
  | Some r, Some r' =>
      br_trip_id r' = br_trip_id r
      /\ br_driver_id r' = br_driver_id r
      /\ (br_status r' = pending -> br_status r = pending)
  | None, None => True
  | _, _ => False
  end.

Definition settles (w w' : world) : Prop :=
  forall id, row_settles (booking_requests w !! id) (booking_requests w' !! id).

(** ** What no event touches *)

Definition same_frame (w w' : world) : Prop :=
  booking_requests_seq w' = booking_requests_seq w
  /\ drivers w' = drivers w
  /\ users w' = users w.

(** ** A store that keeps refusing *)

Definition refuse (t : turn) : turn :=
  Turn (turn_elapsed t) (turn_events t) true.

Definition pass_turns (sched : list turn) (w : world) : world :=
  foldl (fun w t => enter t w) w sched.

(** ** The candidates of a dispatch, as the claims describe them *)

Definition radians (deg : R) : R := (deg * PI / 180)%R.

(** The great-circle distance in kilometres (spherical law of cosines,
    Earth radius 6371 km) between two points given by latitude and
    longitude in degrees. *)
Definition great_circle_km (lat1 lng1 lat2 lng2 : R) : R :=
  (6371 * acos (sin (radians lat1) * sin (radians lat2) +
                cos (radians lat1) * cos (radians lat2) *
                cos (radians lng2 - radians lng1)))%R.

(** An online, approved driver of the region with an active account. *)
Definition eligible (region : string) (d : driver_row) (u : user_row) : Prop :=
  d_user_id d = u_id u /\ d_region d = region
  /\ d_verification_status d = v_approved /\ d_is_online d = true
  /\ u_status u = active.

(** ** Pending requests of a trip *)

Definition pending_for (w : world) (trip : Z) (id : Z) : Prop :=
  exists r, booking_requests w !! id = Some r
            /\ br_trip_id r = trip /\ br_status r = pending.

Definition none_pending (w : world) (trip : Z) : Prop :=
  forall id, ~ pending_for w trip id.



(** What is known of the request when the poll resolves. *)
Definition resolution (b : bool) (s : option request_status) : Prop :=
  match s with
  | Some accepted => b = true
  | Some rejected | Some expired | None => b = false
  | Some pending => False
  end.

(** ** A store that answers

    A schedule is [healthy] when the store refuses nothing and every
    suspension lasts at least the period of the poll timer. *)

Definition POLL_INTERVAL : Z := 1000.

Definition healthy (sched : list turn) : Prop :=
  Forall (fun t => turn_refused t = false /\ POLL_INTERVAL <= turn_elapsed t) sched.

(** ** Cancelling the trip during a wait

    Two worlds [agree] when they differ at most in the contents of the
    rows of [trips]. *)

Definition agree (w w' : world) : Prop :=
  booking_requests w = booking_requests w'
  /\ booking_requests_seq w = booking_requests_seq w'
  /\ drivers w = drivers w'
  /\ users w = users w'
  /\ now w = now w'
  /\ forall k, is_Some (trips w !! k) <-> is_Some (trips w' !! k).

Definition is_cancellation (e : event) : bool :=
  match e with
  | ClientCancels _ _ => true
  | _ => false
  end.

(** The same turn in an environment where the client never cancels. *)
Definition without_cancellations (t : turn) : turn :=
  Turn (turn_elapsed t)
       (List.filter (fun e => negb (is_cancellation e)) (turn_events t))
       (turn_refused t).

Definition run_agree {A} (r r' : run A) : Prop :=
  match r, r' with
  | Resolved a w rest, Resolved a' w' rest' =>
      a = a' /\ agree w w' /\ rest' = map without_cancellations rest
  | Suspended w, Suspended w' => agree w w'
  | _, _ => False
  end.

(** * Scenarios *)

(** Request 1 was rejected; request 2 is pending and past its
    [expires_at]. *)
Definition stale_requests_world : world :=
  World {[ 1 := BookingRequest 1 10 7 rejected (Some "busy") None (Some 500) 60000 0;
           2 := BookingRequest 2 10 8 pending None None None 61000 1000 ]}
        3 {[ 10 := Trip 10 3 None trip_pending None 0 ]} [] [] 90000.

(** An expired request of driver 7 for a trip since cancelled and bound
    to driver 9. *)
Definition cancelled_trip_world : world :=
  World {[ 4 := BookingRequest 4 10 7 expired None None None 60000 0 ]} 5
        {[ 10 := Trip 10 3 (Some 9) trip_cancelled (Some "Cancelled by client") 70000 ]}
        [] [] 90000.

(** One pending request, five seconds old. *)
Definition fresh_request_world : world :=
  World {[ 1 := BookingRequest 1 10 7 pending None None None 60000 0 ]} 2
        {[ 10 := Trip 10 3 None trip_pending None 0 ]} [] [] 5000.

(** An accepted request and an expired one. *)
Definition resolved_requests_world : world :=
  World {[ 1 := BookingRequest 1 10 7 accepted None (Some 4000) None 60000 0;
           2 := BookingRequest 2 11 8 expired None None None 61000 1000 ]}
        3 {[ 10 := Trip 10 3 (Some 7) trip_accepted None 4000;
             11 := Trip 11 4 None trip_pending None 0 ]} [] [] 90000.



(** One eligible driver, standing at latitude 45, longitude 90. *)
Definition driver_at_pickup : driver_row :=
  DriverRow 1 7 "north" v_approved true 5%R (Some 45%R) (Some 90%R).

Definition pickup_world : world :=
  World ∅ 1 {[ 10 := Trip 10 3 None trip_pending None 0 ]}
    [driver_at_pickup] [UserRow 7 "+250700000007" "Aline" active] 0.

Definition pickup_trip : trip_data := TripData 10 45%R 90%R "north" None.

(** ** Four drivers at the pickup point *)

Definition driver_aline : driver_row :=
  DriverRow 1 7 "north" v_approved true 5%R (Some 45%R) (Some 45%R).

Definition driver_bosco : driver_row :=
  DriverRow 2 8 "north" v_approved true 4%R (Some 45%R) (Some 45%R).

Definition driver_chantal : driver_row :=
  DriverRow 3 9 "north" v_approved true 5%R (Some 45%R) (Some 45%R).

Definition driver_didier : driver_row :=
  DriverRow 4 11 "north" v_approved true 3%R (Some 45%R) (Some 45%R).

Definition north_world : world :=
  World ∅ 1 {[ 10 := Trip 10 3 None trip_pending None 0 ]}
    [driver_aline; driver_bosco; driver_chantal; driver_didier]
    [UserRow 7 "+250700000007" "Aline" active;
     UserRow 8 "+250700000008" "Bosco" active;
     UserRow 9 "+250700000009" "Chantal" active;
     UserRow 11 "+250700000011" "Didier" active] 0.


Definition quiet : turn := Turn 1000 [] false.


(** The client cancels the trip at the first poll of the wait; nobody
    answers the offer.  Thirty seconds on ... *)
Definition cancelled_and_waiting : list turn :=
  quiet :: Turn 1000 [ClientCancels 10 "Cancelled by client"] false
        :: replicate 29 quiet.

(** ... and until the poll has gone past the deadline and has marked the
    request expired. *)
Definition cancelled_and_expired : list turn :=
  quiet :: Turn 1000 [ClientCancels 10 "Cancelled by client"] false
        :: replicate 61 quiet.

(** * Vocabulary of the further properties *)

(** A request row that [getPendingRequests] returns to a driver. *)
Definition listed (driverId : Z) (w : world) (br : booking_request) : Prop :=
  exists t, (br, t) ∈ getPendingRequests driverId w.


(** Schedules in which no driver accepts anything, and schedules along
    which the clock does not run backwards. *)
Definition is_acceptance (e : event) : bool :=
  match e with
  | DriverAccepts _ _ => true
  | _ => false
  end.

Definition accept_free (sched : list turn) : Prop :=
  Forall (fun t => Forall (fun e => is_acceptance e = false) (turn_events t)) sched.

Definition clock_forward (sched : list turn) : Prop :=
  Forall (fun t => 0 <= turn_elapsed t) sched.

(** Two drivers waiting for verification: the row with [id] 1 belongs to
    user 9, the row with [id] 9 to user 7. *)
Definition signup_world : world :=
  World ∅ 1 ∅
    [DriverRow 1 9 "north" v_pending false 5%R None None;
     DriverRow 9 7 "north" v_pending false 5%R None None]
    [UserRow 7 "+250700000007" "Aline" active;
     UserRow 9 "+250700000009" "Chantal" active] 0.

(** A trip booked by client 3 and offered to driver 7 five seconds ago. *)
Definition booked_world : world :=
  World {[ 1 := BookingRequest 1 10 7 pending None None None 60000 0 ]} 2
        {[ 10 := Trip 10 3 None trip_pending None 0 ]}
        [DriverRow 1 7 "north" v_approved true 5%R (Some 45%R) (Some 45%R)]
        [UserRow 3 "+250700000003" "Claire" active;
         UserRow 7 "+250700000007" "Aline" active] 5000.

(** The trip of client 3 once driver 7 has accepted it; its passcode was
    generated when it was booked. *)
Definition assigned_desk : trip_desk :=
  TripDesk
    (World ∅ 2
        {[ 10 := Trip 10 3 (Some 7) trip_accepted None 4000 ]}
        [DriverRow 1 7 "north" v_approved true 5%R (Some 45%R) (Some 45%R)]
        [UserRow 3 "+250700000003" "Claire" active;
         UserRow 7 "+250700000007" "Aline" active] 9000)
    {[ 10 := "482913" ]}.

(** * Properties *)

(** ** The two driver-facing transitions *)

Lemma update_request_of_driver_hit id driver set w r :
  booking_requests w !! id = Some r ->
  br_driver_id r = driver ->
  update_request_of_driver id driver set w
  = ([set r], with_requests w (<[id := set r]> (booking_requests w))).
Proof.
  intros Hr Hd. unfold update_request_of_driver.
  rewrite Hr. destruct (decide (br_driver_id r = driver)); [reflexivity | contradiction].
Qed.

Lemma update_request_of_driver_miss id driver set w :
  (forall r, booking_requests w !! id = Some r -> br_driver_id r <> driver) ->
  update_request_of_driver id driver set w = ([], w).
Proof.
  intros Hmiss. unfold update_request_of_driver.
  destruct (booking_requests w !! id) as [r|] eqn:Hr; [|reflexivity].
  destruct (decide (br_driver_id r = driver)) as [Hd|]; [|reflexivity].
  exfalso. exact (Hmiss r eq_refl Hd).
Qed.

(** C1, as stated, fails: request 1 was rejected, and request 2 is pending
    but its [expires_at] (61000) lies before the clock (90000); the driver
    of each accepts it all the same, without an error. *)
Lemma acceptBooking_ignores_status_and_expiry :
  status_of stale_requests_world 1 = Some rejected /\
  (exists r, fst (acceptBooking 1 7 stale_requests_world) = Returned r) /\
  status_of (snd (acceptBooking 1 7 stale_requests_world)) 1 = Some accepted /\
  (exists r, booking_requests stale_requests_world !! 2 = Some r /\
             br_status r = pending /\ br_expires_at r < now stale_requests_world) /\
  (exists r, fst (acceptBooking 2 8 stale_requests_world) = Returned r) /\
  status_of (snd (acceptBooking 2 8 stale_requests_world)) 2 = Some accepted.
Proof.
  repeat split; try reflexivity; eexists; try split; try split;
    vm_compute; reflexivity.
Qed.

(** C1 (amended): [acceptBooking(requestId, driverId)] looks at the
    request's key and driver only.  When the request exists and belongs to
    the driver it returns the request rewritten to [accepted] (with
    [accepted_at] the current time) whatever its status and expiry were;
    otherwise it throws and the store is unchanged: its own error when
    both ids are values of INTEGER, and the error of the database when
    one of them is not. *)
Theorem acceptBooking_guard requestId driverId w :
  match booking_requests w !! requestId with
  | Some r =>
      if decide (br_driver_id r = driverId)
      then fst (acceptBooking requestId driverId w)
             = Returned (set_accepted (now w) r)
           /\ booking_requests (snd (acceptBooking requestId driverId w)) !! requestId
             = Some (set_accepted (now w) r)
      else acceptBooking requestId driverId w
           = (Threw (if int4 requestId && int4 driverId
                     then "Booking request not found or invalid driver"
                     else numeric_value_out_of_range), w)
  | None => acceptBooking requestId driverId w
            = (Threw (if int4 requestId && int4 driverId
                      then "Booking request not found or invalid driver"
                      else numeric_value_out_of_range), w)
  end.
Proof.
  unfold acceptBooking, no_row. simpl. rewrite andb_true_r.
  destruct (booking_requests w !! requestId) as [r|] eqn:Hr.
  - destruct (decide (br_driver_id r = driverId)) as [Hd|Hd].
    + rewrite (update_request_of_driver_hit _ _ _ _ r Hr Hd). simpl.
      split; [reflexivity | apply lookup_insert_eq].
    + rewrite update_request_of_driver_miss; [reflexivity|].
      intros r' Hr'. congruence.
  - rewrite update_request_of_driver_miss; [reflexivity|].
    intros r' Hr'. congruence.
Qed.

(** A request id beyond INTEGER, as a URL can carry it: the error is the
    database's. *)
Example acceptBooking_id_out_of_range :
  acceptBooking 2147483648 7 fresh_request_world
  = (Threw numeric_value_out_of_range, fresh_request_world)
  /\ acceptBooking 2 7 fresh_request_world
     = (Threw "Booking request not found or invalid driver", fresh_request_world).
Proof. split; reflexivity. Qed.

(** C10: when [acceptBooking] matches a request, the trip the request
    refers to is rewritten with the accepting driver and the status
    [accepted], whatever the trip held before. *)
Theorem acceptBooking_rebinds_trip requestId driverId w r tr :
  booking_requests w !! requestId = Some r ->
  br_driver_id r = driverId ->
  trips w !! br_trip_id r = Some tr ->
  exists tr',
    trips (snd (acceptBooking requestId driverId w)) !! br_trip_id r = Some tr'
    /\ trip_driver_id tr' = Some driverId
    /\ trip_state tr' = trip_accepted.
Proof.
  intros Hr Hd Htr. unfold acceptBooking.
  rewrite (update_request_of_driver_hit _ _ _ _ r Hr Hd). simpl.
  rewrite lookup_alter_eq, Htr. simpl.
  eexists. split; [reflexivity|]. split; reflexivity.
Qed.

(** A cancelled trip that was bound to driver 9 is re-bound to driver 7. *)
Lemma acceptBooking_rebinds_trip_witness :
  trips cancelled_trip_world !! 10 = Some (Trip 10 3 (Some 9) trip_cancelled (Some "Cancelled by client") 70000)
  /\ exists tr',
    trips (snd (acceptBooking 4 7 cancelled_trip_world)) !! 10 = Some tr'
    /\ trip_driver_id tr' = Some 7
    /\ trip_state tr' = trip_accepted.
Proof.
  split; [reflexivity|].
  apply (acceptBooking_rebinds_trip 4 7 cancelled_trip_world
           (BookingRequest 4 10 7 expired None None None 60000 0)
           (Trip 10 3 (Some 9) trip_cancelled (Some "Cancelled by client") 70000));
    reflexivity.
Defined.

(** ** Concurrent invocations on one request *)

(** C3, as stated, fails: an accept and a reject of the same pending
    request both succeed, in either order. *)
Lemma accept_and_reject_both_succeed :
  status_of fresh_request_world 1 = Some pending /\
  succeeded <$> fst (invoke_all 1 7 [InvokeAccept; InvokeReject "busy"] fresh_request_world)
    = [true; true] /\
  succeeded <$> fst (invoke_all 1 7 [InvokeReject "busy"; InvokeAccept] fresh_request_world)
    = [true; true].
Proof. repeat split; vm_compute; reflexivity. Qed.

Lemma invoke_hit requestId driverId i w r :
  booking_requests w !! requestId = Some r ->
  br_driver_id r = driverId ->
  exists r',
    succeeded (fst (invoke requestId driverId i w)) = true /\
    booking_requests (snd (invoke requestId driverId i w)) !! requestId = Some r' /\
    br_driver_id r' = driverId /\
    br_status r' = written_status i.
Proof.
  intros Hr Hd. destruct i as [|reason]; simpl.
  - unfold acceptBooking.
    rewrite (update_request_of_driver_hit _ _ _ _ r Hr Hd). simpl.
    eexists. split; [reflexivity|]. split; [apply lookup_insert_eq|].
    split; [exact Hd | reflexivity].
  - unfold rejectBooking.
    rewrite (update_request_of_driver_hit _ _ _ _ r Hr Hd). simpl.
    eexists. split; [reflexivity|]. split; [apply lookup_insert_eq|].
    split; [exact Hd | reflexivity].
Qed.

(** C3 (amended): every [acceptBooking] and [rejectBooking] invoked by the
    request's own driver succeeds, whatever was invoked before it, and the
    request ends with the status written by the last of them. *)
Theorem invocations_all_succeed requestId driverId l w r :
  booking_requests w !! requestId = Some r ->
  br_driver_id r = driverId ->
  Forall (fun c => succeeded c = true) (fst (invoke_all requestId driverId l w))
  /\ length (fst (invoke_all requestId driverId l w)) = length l
  /\ status_of (snd (invoke_all requestId driverId l w)) requestId
     = Some (default (br_status r) (written_status <$> last l)).
Proof.
  revert w r. induction l as [|i l IH]; intros w r Hr Hd.
  - simpl. split; [constructor|]. split; [reflexivity|].
    unfold status_of. rewrite Hr. reflexivity.
  - destruct (invoke_hit requestId driverId i w r Hr Hd)
      as (r' & Hok & Hr' & Hd' & Hst).
    simpl. destruct (invoke requestId driverId i w) as [c w1] eqn:Hi.
    simpl in Hok, Hr'.
    specialize (IH w1 r' Hr' Hd').
    destruct (invoke_all requestId driverId l w1) as [cs w2] eqn:Hall.
    simpl in IH |- *. destruct IH as (Hall_ok & Hlen & Hlast).
    split; [constructor; assumption|]. split; [congruence|].
    rewrite Hlast. destruct l as [|j l'].
    + simpl. rewrite Hst. reflexivity.
    + rewrite (last_cons_cons i j l').
      destruct (last (j :: l')) as [k|] eqn:Hk; [reflexivity|].
      apply last_None in Hk. discriminate.
Qed.

Lemma invocations_all_succeed_witness :
  Forall (fun c => succeeded c = true)
    (fst (invoke_all 1 7 [InvokeAccept; InvokeReject "busy"; InvokeAccept] fresh_request_world))
  /\ length (fst (invoke_all 1 7 [InvokeAccept; InvokeReject "busy"; InvokeAccept] fresh_request_world))
     = 3%nat
  /\ status_of (snd (invoke_all 1 7 [InvokeAccept; InvokeReject "busy"; InvokeAccept] fresh_request_world)) 1
     = Some accepted.
Proof.
  apply (invocations_all_succeed 1 7
           [InvokeAccept; InvokeReject "busy"; InvokeAccept] fresh_request_world
           (BookingRequest 1 10 7 pending None None None 60000 0));
    reflexivity.
Defined.

(** The expiry update of the poll is not gated on the status either: a
    driver who accepts between the poll's SELECT and its UPDATE is told
    the booking is accepted, the trip is bound to the driver, and the
    request then reads [expired]. *)
Example accept_between_select_and_expiry :
  let sched := [Turn 61000 [] false; Turn 5 [DriverAccepts 1 7] false] in
  let w1 := enter (Turn 61000 [] false) fresh_request_world in
  (exists r, fst (acceptBooking 1 7 (with_now w1 (now w1 + 5))) = Returned r) /\
  exists w',
    waitForDriverResponse 1 ACCEPT_TIMEOUT 5000 sched fresh_request_world = Resolved false w' []
    /\ status_of w' 1 = Some expired
    /\ trip_driver_id <$> trips w' !! 10 = Some (Some 7)
    /\ trip_state <$> trips w' !! 10 = Some trip_accepted.
Proof.
  split.
  - eexists. vm_compute. reflexivity.
  - eexists. split; [vm_compute; reflexivity|]. repeat split.
Qed.

(** ** What the environment and the poll can do to the requests *)

Lemma row_settles_refl o : row_settles o o.
Proof. destruct o; simpl; auto. Qed.

Lemma row_settles_trans o1 o2 o3 :
  row_settles o1 o2 -> row_settles o2 o3 -> row_settles o1 o3.
Proof.
  destruct o1, o2, o3; simpl; try tauto.
  intros (Ht & Hd & Hs) (Ht' & Hd' & Hs').
  split; [congruence|]. split; [congruence | auto].
Qed.

Lemma settles_refl w : settles w w.
Proof. intros id. apply row_settles_refl. Qed.

Lemma settles_trans w1 w2 w3 : settles w1 w2 -> settles w2 w3 -> settles w1 w3.
Proof. intros H12 H23 id. eapply row_settles_trans; [apply H12 | apply H23]. Qed.

Lemma settles_same_requests w w' :
  booking_requests w' = booking_requests w -> settles w w'.
Proof. intros Heq id. rewrite Heq. apply row_settles_refl. Qed.

(** Overwriting one existing row by a row of the same trip that is not
    [pending]. *)
Lemma settles_overwrite w id r r' :
  booking_requests w !! id = Some r ->
  br_trip_id r' = br_trip_id r ->
  br_driver_id r' = br_driver_id r ->
  br_status r' <> pending ->
  settles w (with_requests w (<[id := r']> (booking_requests w))).
Proof.
  intros Hr Ht Hd Hs k. simpl.
  destruct (decide (id = k)) as [->|Hne].
  - rewrite lookup_insert_eq, Hr. simpl.
    split; [exact Ht|]. split; [exact Hd | tauto].
  - rewrite lookup_insert_ne by exact Hne. apply row_settles_refl.
Qed.

Lemma update_request_of_driver_settles id driver set w :
  (forall r, br_trip_id (set r) = br_trip_id r) ->
  (forall r, br_driver_id (set r) = br_driver_id r) ->
  (forall r, br_status (set r) <> pending) ->
  settles w (snd (update_request_of_driver id driver set w)).
Proof.
  intros Ht Hd Hs. unfold update_request_of_driver.
  destruct (booking_requests w !! id) as [r|] eqn:Hr; [|apply settles_refl].
  destruct (decide (br_driver_id r = driver)); [|apply settles_refl].
  simpl. eapply settles_overwrite; eauto.
Qed.

Lemma acceptBooking_settles requestId driverId w :
  settles w (snd (acceptBooking requestId driverId w)).
Proof.
  unfold acceptBooking.
  pose proof (update_request_of_driver_settles requestId driverId
                (set_accepted (now w)) w) as H.
  destruct (update_request_of_driver requestId driverId (set_accepted (now w)) w)
    as [rows w1].
  simpl in H. assert (Hs : settles w w1) by (apply H; [reflexivity | reflexivity | discriminate]).
  destruct rows; simpl; [exact Hs|].
  intros id. apply Hs.
Qed.

Lemma rejectBooking_settles requestId driverId reason w :
  settles w (snd (rejectBooking requestId driverId reason w)).
Proof.
  unfold rejectBooking.
  pose proof (update_request_of_driver_settles requestId driverId
                (set_rejected reason (now w)) w) as H.
  destruct (update_request_of_driver requestId driverId (set_rejected reason (now w)) w)
    as [rows w1].
  simpl in H. assert (Hs : settles w w1) by (apply H; [reflexivity | reflexivity | discriminate]).
  destruct rows; simpl; exact Hs.
Qed.

Lemma cancelTrip_requests tripId reason w :
  booking_requests (snd (cancelTrip tripId reason w)) = booking_requests w.
Proof.
  unfold cancelTrip. destruct (trips w !! tripId) as [tr|]; [|reflexivity].
  destruct (decide (trip_state tr = trip_completed)); reflexivity.
Qed.

Lemma apply_event_settles w e : settles w (apply_event w e).
Proof.
  destruct e; simpl.
  - apply acceptBooking_settles.
  - apply rejectBooking_settles.
  - apply settles_same_requests, cancelTrip_requests.
Qed.

Lemma foldl_apply_event_settles l w : settles w (foldl apply_event w l).
Proof.
  revert w. induction l as [|e l IH]; intros w; simpl.
  - apply settles_refl.
  - eapply settles_trans; [apply apply_event_settles | apply IH].
Qed.

Lemma enter_settles t w : settles w (enter t w).
Proof.
  unfold enter. eapply settles_trans; [|apply foldl_apply_event_settles].
  apply settles_same_requests. reflexivity.
Qed.

Lemma expire_request_settles requestId w :
  settles w (expire_request requestId w).
Proof.
  intros id. unfold expire_request. simpl.
  destruct (decide (requestId = id)) as [->|Hne].
  - rewrite lookup_alter_eq. destruct (booking_requests w !! id); simpl; [|exact I].
    split; [reflexivity|]. split; [reflexivity | discriminate].
  - rewrite lookup_alter_ne by exact Hne. apply row_settles_refl.
Qed.

(** Induction over a schedule two turns at a time, as the poll consumes
    it (a SELECT, then possibly an UPDATE). *)
Lemma turns_ind2 (P : list turn -> Prop) :
  P [] ->
  (forall t, P [t]) ->
  (forall t u rest, P rest -> P (u :: rest) -> P (t :: u :: rest)) ->
  forall l, P l.
Proof.
  intros Hnil Hone Hstep l.
  assert (H : P l /\ forall t, P (t :: l)); [|exact (proj1 H)].
  induction l as [|u l [IHl IHcons]].
  - split; [exact Hnil | exact Hone].
  - split; [apply IHcons|]. intros t. apply Hstep; [exact IHl | apply IHcons].
Qed.

(** Any property of worlds that every turn and the expiry update preserve
    holds wherever the poll stands. *)
Lemma waitForDriverResponse_invariant (I : world -> Prop)
    requestId timeout startTime :
  (forall t w, I w -> I (enter t w)) ->
  (forall w, I w -> I (expire_request requestId w)) ->
  forall sched w, I w ->
    I (world_of (waitForDriverResponse requestId timeout startTime sched w)).
Proof.
  intros Henter Hexpire sched.
  induction sched as [|t|t u rest IH1 IH2] using turns_ind2; intros w Hw.
  - exact Hw.
  - simpl. destruct (turn_refused t); simpl; [auto|].
    destruct (booking_requests (enter t w) !! requestId) as [r|]; simpl; [|auto].
    destruct (br_status r); simpl; auto;
      destruct (bool_decide _); simpl; auto.
  - cbn [waitForDriverResponse].
    destruct (turn_refused t); [apply IH2; auto|].
    destruct (booking_requests (enter t w) !! requestId) as [r|]; simpl; [|auto].
    assert (Hgo : I (world_of
      (if bool_decide (now (enter t w) - startTime > timeout)
       then if turn_refused u
            then waitForDriverResponse requestId timeout startTime rest
                   (enter u (enter t w))
            else Resolved false (expire_request requestId (enter u (enter t w))) rest
       else waitForDriverResponse requestId timeout startTime (u :: rest)
              (enter t w)))).
    { destruct (bool_decide _); [|apply IH2; auto].
      destruct (turn_refused u); [apply IH1; auto | simpl; auto]. }
    destruct (br_status r); simpl; auto.
Qed.

Lemma waitForDriverResponse_settles requestId timeout startTime sched w :
  settles w (world_of (waitForDriverResponse requestId timeout startTime sched w)).
Proof.
  apply (waitForDriverResponse_invariant (settles w)).
  - intros t w' H. eapply settles_trans; [exact H | apply enter_settles].
  - intros w' H. eapply settles_trans; [exact H | apply expire_request_settles].
  - apply settles_refl.
Qed.

Lemma settles_settled w w' id : settles w w' -> settled w id -> settled w' id.
Proof.
  intros Hs (s & Hst & Hne). specialize (Hs id).
  unfold settled, status_of in *.
  destruct (booking_requests w !! id) as [r|]; [|discriminate].
  destruct (booking_requests w' !! id) as [r'|]; [|contradiction].
  simpl in *. destruct Hs as (_ & _ & Hs). exists (br_status r'). split; [reflexivity|].
  intros Hp. apply Hne. injection Hst as <-. auto.
Qed.

(** C2, as stated, fails: an accepted request becomes rejected and an
    expired request becomes accepted. *)
Lemma terminal_statuses_are_overwritten :
  status_of resolved_requests_world 1 = Some accepted /\
  status_of (snd (rejectBooking 1 7 "changed my mind" resolved_requests_world)) 1 = Some rejected /\
  status_of resolved_requests_world 2 = Some expired /\
  status_of (snd (acceptBooking 2 8 resolved_requests_world)) 2 = Some accepted.
Proof. repeat split. Qed.

(** C2 (amended): a request that has left [pending] is never [pending]
    again: [acceptBooking], [rejectBooking], the expiry update and the
    whole of [waitForDriverResponse], under any schedule of drivers'
    answers and cancellations, leave it present and not [pending]. *)
Theorem left_pending_never_returns w id :
  settled w id ->
  (forall requestId driverId,
      settled (snd (acceptBooking requestId driverId w)) id) /\
  (forall requestId driverId reason,
      settled (snd (rejectBooking requestId driverId reason w)) id) /\
  (forall requestId, settled (expire_request requestId w) id) /\
  (forall requestId timeout startTime sched,
      settled (world_of (waitForDriverResponse requestId timeout startTime sched w)) id).
Proof.
  intros H. repeat split; intros.
  - eapply settles_settled; [apply acceptBooking_settles | exact H].
  - eapply settles_settled; [apply rejectBooking_settles | exact H].
  - eapply settles_settled; [apply expire_request_settles | exact H].
  - eapply settles_settled; [apply waitForDriverResponse_settles | exact H].
Qed.

Lemma left_pending_never_returns_witness :
  settled resolved_requests_world 2 /\
  settled (snd (acceptBooking 2 8 resolved_requests_world)) 2 /\
  settled (world_of (waitForDriverResponse 2 ACCEPT_TIMEOUT 1000
                       [Turn 1000 [DriverRejects 2 8 "no"] true;
                        Turn 1000 [DriverAccepts 2 8] false] resolved_requests_world)) 2.
Proof.
  assert (H : settled resolved_requests_world 2) by (exists expired; split; [reflexivity | discriminate]).
  split; [exact H|].
  split; [apply (proj1 (left_pending_never_returns resolved_requests_world 2 H))|].
  apply (proj2 (proj2 (proj2 (left_pending_never_returns resolved_requests_world 2 H)))).
Defined.

(** ** No record is created where none is inserted *)

Lemma settles_dom w w' :
  settles w w' -> dom (booking_requests w') = dom (booking_requests w).
Proof.
  intros Hs. apply set_eq. intros id. rewrite !elem_of_dom.
  specialize (Hs id).
  destruct (booking_requests w !! id), (booking_requests w' !! id);
    simpl in Hs; try contradiction; split; intros [? ?]; eauto; discriminate.
Qed.

Lemma settles_size w w' :
  settles w w' -> size (booking_requests w') = size (booking_requests w).
Proof. intros Hs. rewrite <- !size_dom, (settles_dom _ _ Hs). reflexivity. Qed.

(** ** What no event touches *)

Lemma same_frame_refl w : same_frame w w.
Proof. repeat split. Qed.

Lemma same_frame_trans w1 w2 w3 :
  same_frame w1 w2 -> same_frame w2 w3 -> same_frame w1 w3.
Proof.
  intros (H1 & H2 & H3) (H1' & H2' & H3'). repeat split; congruence.
Qed.

Lemma update_request_of_driver_frame id driver set w :
  same_frame w (snd (update_request_of_driver id driver set w))
  /\ now (snd (update_request_of_driver id driver set w)) = now w
  /\ trips (snd (update_request_of_driver id driver set w)) = trips w.
Proof.
  unfold update_request_of_driver.
  destruct (booking_requests w !! id) as [r|]; [|repeat split].
  destruct (decide (br_driver_id r = driver)); repeat split.
Qed.

Lemma apply_event_frame w e :
  same_frame w (apply_event w e) /\ now (apply_event w e) = now w.
Proof.
  destruct e as [requestId driverId|requestId driverId reason|tripId reason]; simpl.
  - unfold acceptBooking.
    pose proof (update_request_of_driver_frame requestId driverId
                  (set_accepted (now w)) w) as H.
    destruct (update_request_of_driver requestId driverId (set_accepted (now w)) w)
      as [rows w1].
    destruct rows; simpl in *; [tauto|].
    destruct H as ((H1 & H2 & H3) & H4 & _). repeat split; assumption.
  - unfold rejectBooking.
    pose proof (update_request_of_driver_frame requestId driverId
                  (set_rejected reason (now w)) w) as H.
    destruct (update_request_of_driver requestId driverId
                (set_rejected reason (now w)) w) as [rows w1].
    destruct rows; simpl in *; tauto.
  - unfold cancelTrip. destruct (trips w !! tripId) as [tr|]; [|repeat split].
    destruct (decide (trip_state tr = trip_completed)); repeat split.
Qed.

Lemma foldl_apply_event_frame l w :
  same_frame w (foldl apply_event w l) /\ now (foldl apply_event w l) = now w.
Proof.
  revert w. induction l as [|e l IH]; intros w; simpl.
  - split; [apply same_frame_refl | reflexivity].
  - destruct (apply_event_frame w e) as [Hf Hn].
    destruct (IH (apply_event w e)) as [Hf' Hn'].
    split; [eapply same_frame_trans; eassumption | congruence].
Qed.


Lemma enter_now t w : now (enter t w) = now w + turn_elapsed t.
Proof.
  unfold enter.
  destruct (foldl_apply_event_frame (turn_events t)
              (with_now w (now w + turn_elapsed t))) as [_ Hn].
  exact Hn.
Qed.

(** ** The wait and a store that keeps refusing *)

Lemma enter_refuse t w : enter (refuse t) w = enter t w.
Proof. reflexivity. Qed.

Lemma waitForDriverResponse_refused requestId timeout startTime sched :
  forall w,
    waitForDriverResponse requestId timeout startTime (map refuse sched) w
    = Suspended (pass_turns sched w).
Proof.
  induction sched as [|t sched IH]; intros w.
  - reflexivity.
  - cbn [map waitForDriverResponse refuse turn_refused].
    rewrite IH. reflexivity.
Qed.

Lemma pass_turns_now sched :
  forall w, now (pass_turns sched w) = now w + foldr Z.add 0 (turn_elapsed <$> sched).
Proof.
  unfold pass_turns. induction sched as [|t sched IH]; intros w.
  - simpl. lia.
  - rewrite fmap_cons. cbn [foldl foldr]. rewrite IH, enter_now. lia.
Qed.

(** C7 fails on the code.  While the store refuses the status query, the
    callback of the timer ends in its [catch] without looking at the
    clock: whatever the schedule, however long and however far past the
    deadline it runs, the promise of [waitForDriverResponse] is never
    resolved and the request is never marked expired. *)
Theorem wait_never_resolves_while_store_refuses
    requestId timeout startTime sched w :
  waitForDriverResponse requestId timeout startTime (map refuse sched) w
  = Suspended (pass_turns sched w)
  /\ now (pass_turns sched w) = now w + foldr Z.add 0 (turn_elapsed <$> sched)
  /\ settles w (pass_turns sched w).
Proof.
  split; [apply waitForDriverResponse_refused|].
  split; [apply pass_turns_now|].
  change (pass_turns sched w)
    with (world_of (Suspended (A:=bool) (pass_turns sched w))).
  rewrite <- (waitForDriverResponse_refused requestId timeout startTime sched w).
  apply waitForDriverResponse_settles.
Qed.

(** One hour of refused polls on a pending request: still waiting, still
    [pending], an hour after the request was created. *)
Example wait_blocks_for_an_hour :
  exists w',
    waitForDriverResponse 1 ACCEPT_TIMEOUT 5000
      (map refuse (replicate 3600 (Turn 1000 [] false))) fresh_request_world = Suspended w'
    /\ status_of w' 1 = Some pending
    /\ now w' = 5000 + 3600 * 1000.
Proof.
  eexists. split; [apply waitForDriverResponse_refused|].
  split; vm_compute; reflexivity.
Qed.

(** ** The candidate query *)


(** Whatever it is asked, [getNearestDrivers] throws. *)
Lemma getNearestDrivers_rejected latitude longitude region maxDistance w :
  getNearestDrivers latitude longitude region maxDistance w = Threw grouping_error.
Proof. reflexivity. Qed.

(** A dispatch ends at its first query: it throws the error of the
    store, and what has happened to the booking requests meanwhile is
    what the drivers did; none was created. *)
Lemma findAndAssignDriver_throws tripData t rest w :
  findAndAssignDriver tripData (t :: rest) w
  = Resolved (Threw (if turn_refused t then "query failed" else grouping_error))
      (enter t w) rest.
Proof.
  unfold findAndAssignDriver. rewrite getNearestDrivers_rejected.
  destruct (turn_refused t); reflexivity.
Qed.


(** A point is at distance 0 from itself. *)
Lemma great_circle_self lat lng : great_circle_km lat lng lat lng = 0%R.
Proof.
  unfold great_circle_km.
  replace (radians lng - radians lng)%R with 0%R by lra.
  rewrite cos_0.
  replace (sin (radians lat) * sin (radians lat)
           + cos (radians lat) * cos (radians lat) * 1)%R
    with ((sin (radians lat))² + (cos (radians lat))²)%R by (unfold Rsqr; ring).
  rewrite sin2_cos2, acos_1. ring.
Qed.

(** C4 fails on the code.  Pickup at latitude 45, longitude 90; one
    online, approved driver of the region with an active account stands
    on the pickup point, at great-circle distance 0.  The claim has this
    driver as the one candidate.  [getNearestDrivers] throws instead,
    with the coordinates in the declared order as well as in the order
    [findAndAssignDriver] hands them over, and the dispatch throws with
    it. *)
Theorem candidate_query_is_rejected :
  driver_at_pickup ∈ drivers pickup_world
  /\ eligible "north" driver_at_pickup (UserRow 7 "+250700000007" "Aline" active)
  /\ d_current_latitude driver_at_pickup = Some (pickupLat pickup_trip)
  /\ d_current_longitude driver_at_pickup = Some (pickupLng pickup_trip)
  /\ (great_circle_km (pickupLat pickup_trip) (pickupLng pickup_trip) 45 90 <= 5)%R
  /\ getNearestDrivers (pickupLat pickup_trip) (pickupLng pickup_trip) "north" 5
       pickup_world
     = Threw grouping_error
  /\ getNearestDrivers (pickupLng pickup_trip) (pickupLat pickup_trip) "north" 5
       pickup_world
     = Threw grouping_error
  /\ findAndAssignDriver pickup_trip [Turn 0 [] false] pickup_world
     = Resolved (Threw grouping_error) (enter (Turn 0 [] false) pickup_world) [].
Proof.
  split; [apply list_elem_of_singleton; reflexivity|].
  split; [repeat split|].
  split; [reflexivity|]. split; [reflexivity|].
  split; [simpl; rewrite great_circle_self; lra|].
  split; [reflexivity|]. split; [reflexivity|].
  apply findAndAssignDriver_throws.
Qed.

(** ** The attempts that are never made *)


(** ** A region without drivers *)


(** ** Pending requests of a trip along an attempt *)

Lemma settles_pending_for w w' trip id :
  settles w w' -> pending_for w' trip id -> pending_for w trip id.
Proof.
  intros Hs (r' & Hr' & Ht & Hp). specialize (Hs id). rewrite Hr' in Hs.
  destruct (booking_requests w !! id) as [r|] eqn:Hr; simpl in Hs; [|contradiction].
  destruct Hs as (Ht' & _ & Hs). exists r. split; [exact Hr|].
  split; [congruence | auto].
Qed.

Lemma settles_none_pending w w' trip :
  settles w w' -> none_pending w trip -> none_pending w' trip.
Proof. intros Hs Hn id Hp. exact (Hn id (settles_pending_for _ _ _ _ Hs Hp)). Qed.




Lemma insert_request_returned tripId driverId w request w2 :
  insert_request tripId driverId w = (Returned request, w2) ->
  booking_requests w !! booking_requests_seq w = None
  /\ request = BookingRequest (booking_requests_seq w) tripId driverId pending
                 None None None (now w + 60000) (now w)
  /\ booking_requests w2 = <[booking_requests_seq w := request]> (booking_requests w)
  /\ now w2 = now w
  /\ drivers w2 = drivers w /\ users w2 = users w /\ trips w2 = trips w.
Proof.
  unfold insert_request.
  destruct (negb _); [discriminate|].
  destruct (booking_requests w !! booking_requests_seq w) eqn:Hfree; [discriminate|].
  destruct (_ && _); [|discriminate].
  intros [= <- <-]. simpl. repeat split.
Qed.

Lemma insert_request_threw tripId driverId w message w2 :
  insert_request tripId driverId w = (Threw message, w2) ->
  booking_requests w2 = booking_requests w
  /\ now w2 = now w
  /\ drivers w2 = drivers w /\ users w2 = users w /\ trips w2 = trips w.
Proof.
  unfold insert_request.
  destruct (negb _); [intros [= _ <-]; repeat split|].
  destruct (booking_requests w !! booking_requests_seq w).
  - intros [= _ <-]. repeat split.
  - destruct (_ && _); [discriminate|]. intros [= _ <-]. repeat split.
Qed.


Lemma waitForDriverResponse_resolved requestId timeout startTime sched :
  forall w b w' rest,
    waitForDriverResponse requestId timeout startTime sched w = Resolved b w' rest ->
    resolution b (status_of w' requestId).
Proof.
  assert (Hexp : forall w, resolution false (status_of (expire_request requestId w) requestId)).
  { intros w. unfold status_of, expire_request. simpl. rewrite lookup_alter_eq.
    destruct (booking_requests w !! requestId); exact eq_refl. }
  induction sched as [|t|t u rest0 IH1 IH2] using turns_ind2; intros w b w' rest.
  - discriminate.
  - simpl. destruct (turn_refused t); [discriminate|].
    destruct (booking_requests (enter t w) !! requestId) as [r|] eqn:Hr.
    + destruct (br_status r) eqn:Hst;
        try (destruct (bool_decide _); discriminate);
        intros [= <- <- <-]; unfold status_of; rewrite Hr; simpl; rewrite Hst;
        reflexivity.
    + intros [= <- <- <-]. unfold status_of. rewrite Hr. reflexivity.
  - cbn [waitForDriverResponse]. destruct (turn_refused t); [apply IH2|].
    destruct (booking_requests (enter t w) !! requestId) as [r|] eqn:Hr.
    + assert (Hgo :
        (if bool_decide (now (enter t w) - startTime > timeout)
         then if turn_refused u
              then waitForDriverResponse requestId timeout startTime rest0
                     (enter u (enter t w))
              else Resolved false (expire_request requestId (enter u (enter t w))) rest0
         else waitForDriverResponse requestId timeout startTime (u :: rest0)
                (enter t w)) = Resolved b w' rest ->
        resolution b (status_of w' requestId)).
      { destruct (bool_decide _); [|apply IH2].
        destruct (turn_refused u); [apply IH1|].
        intros [= <- <- <-]. apply Hexp. }
      destruct (br_status r) eqn:Hst; try exact Hgo;
        intros [= <- <- <-]; unfold status_of; rewrite Hr; simpl; rewrite Hst;
        reflexivity.
    + intros [= <- <- <-]. unfold status_of. rewrite Hr. reflexivity.
Qed.



(** ** A wait always comes back when the store answers *)

Lemma waitForDriverResponse_resolves requestId timeout startTime n :
  forall sched w,
    healthy sched ->
    timeout < now w - startTime + POLL_INTERVAL * (Z.of_nat n + 1) ->
    (n + 2 <= length sched)%nat ->
    exists b w' rest,
      waitForDriverResponse requestId timeout startTime sched w = Resolved b w' rest
      /\ (length sched <= length rest + (n + 2))%nat
      /\ healthy rest.
Proof.
  unfold POLL_INTERVAL.
  induction n as [|n IH]; intros sched w Hh Ht Hlen;
    destruct sched as [|t [|u rest0]]; simpl in Hlen; try lia;
    inversion Hh as [|? ? [Hrt Het] Hh1]; subst;
    inversion Hh1 as [|? ? [Hru Heu] Hh0]; subst;
    cbn [waitForDriverResponse]; rewrite Hrt;
    pose proof (enter_now t w) as Hnow; unfold POLL_INTERVAL in *.
  - destruct (booking_requests (enter t w) !! requestId) as [r|].
    + destruct (br_status r);
        try (eexists _, _, _; split; [reflexivity|]; split; [simpl; lia | assumption]);
        rewrite bool_decide_eq_true_2 by lia; rewrite Hru;
        eexists _, _, _; (split; [reflexivity|]); split; (simpl; lia) || assumption.
    + eexists _, _, _. split; [reflexivity|]. split; [simpl; lia | assumption].
  - assert (Hrec : exists b w' rest,
              waitForDriverResponse requestId timeout startTime (u :: rest0) (enter t w)
              = Resolved b w' rest
              /\ (length (u :: rest0) <= length rest + (n + 2))%nat /\ healthy rest).
    { apply IH; [assumption | lia | simpl; lia]. }
    destruct (booking_requests (enter t w) !! requestId) as [r|].
    + destruct (br_status r);
        try (eexists _, _, _; split; [reflexivity|]; split; [simpl; lia | assumption]);
        (destruct (bool_decide (now (enter t w) - startTime > timeout));
         [ rewrite Hru; eexists _, _, _; (split; [reflexivity|]);
           split; (simpl; lia) || assumption
         | destruct Hrec as (b & w' & rest & Hw & Hl & Hr);
           exists b, w', rest; split; [exact Hw|]; split; [simpl in *; lia | exact Hr] ]).
    + eexists _, _, _. split; [reflexivity|]. split; [simpl; lia | assumption].
Qed.

Lemma sendAssignmentRequest_resolves tripId driverId sched w :
  healthy sched ->
  (63 <= length sched)%nat ->
  exists b w' rest,
    sendAssignmentRequest tripId driverId sched w = Resolved b w' rest
    /\ (length sched <= length rest + 63)%nat
    /\ healthy rest.
Proof.
  intros Hh Hlen. destruct sched as [|t rest0]; simpl in Hlen; [lia|].
  inversion Hh as [|? ? [Hrt Het] Hh0]; subst.
  unfold sendAssignmentRequest. rewrite Hrt.
  destruct (insert_request tripId driverId (enter t w)) as [[request|msg] w2].
  - destruct (waitForDriverResponse_resolves (br_id request) ACCEPT_TIMEOUT (now w2)
                60 rest0 w2 Hh0) as (b & w' & rest & Hw & Hl & Hr).
    + unfold ACCEPT_TIMEOUT, POLL_INTERVAL. lia.
    + lia.
    + exists b, w', rest. split; [exact Hw|]. split; [simpl; lia | exact Hr].
  - eexists _, _, _. split; [reflexivity|]. split; [simpl; lia | assumption].
Qed.

(** ** Cancelling the trip during a wait *)

Lemma agree_refl w : agree w w.
Proof. repeat split; auto. Qed.

Ltac agree_fields w w' H :=
  destruct w as [br sq tr dr us nw], w' as [br' sq' tr' dr' us' nw'];
  unfold agree in H; simpl in H;
  destruct H as (<- & <- & <- & <- & <- & H).

Lemma is_Some_alter {A} (f : A -> A) (m : gmap Z A) i k :
  is_Some (alter f i m !! k) <-> is_Some (m !! k).
Proof.
  destruct (decide (i = k)) as [->|Hne].
  - rewrite lookup_alter_eq. destruct (m !! k); simpl; split; intros [? ?]; eauto;
      discriminate.
  - rewrite lookup_alter_ne by exact Hne. reflexivity.
Qed.

Lemma is_Some_overwrite {A} (m : gmap Z A) i x y k :
  m !! i = Some x -> is_Some (<[i := y]> m !! k) <-> is_Some (m !! k).
Proof.
  intros Hi. destruct (decide (i = k)) as [->|Hne].
  - rewrite lookup_insert_eq, Hi. split; eauto.
  - rewrite lookup_insert_ne by exact Hne. reflexivity.
Qed.

Lemma acceptBooking_agree requestId driverId w w' :
  agree w w' ->
  agree (snd (acceptBooking requestId driverId w))
        (snd (acceptBooking requestId driverId w')).
Proof.
  intros H. agree_fields w w' H.
  unfold acceptBooking, update_request_of_driver. simpl.
  destruct (br !! requestId) as [r|]; simpl; [|repeat split; apply H].
  destruct (decide (br_driver_id r = driverId)); simpl; [|repeat split; apply H].
  unfold agree. simpl. repeat split; intros Hk;
    apply is_Some_alter; apply is_Some_alter in Hk; apply H; exact Hk.
Qed.

Lemma rejectBooking_agree requestId driverId reason w w' :
  agree w w' ->
  agree (snd (rejectBooking requestId driverId reason w))
        (snd (rejectBooking requestId driverId reason w')).
Proof.
  intros H. agree_fields w w' H.
  unfold rejectBooking, update_request_of_driver. simpl.
  destruct (br !! requestId) as [r|]; simpl; [|repeat split; apply H].
  destruct (decide (br_driver_id r = driverId)); simpl; repeat split; apply H.
Qed.

(** A cancellation changes the row of the trip and nothing else. *)
Lemma cancelTrip_agree tripId reason w : agree (snd (cancelTrip tripId reason w)) w.
Proof.
  unfold cancelTrip. destruct (trips w !! tripId) as [tr|] eqn:Htr;
    [|apply agree_refl].
  destruct (decide (trip_state tr = trip_completed)); [apply agree_refl|].
  unfold agree. simpl. repeat split; intros Hk.
  - exact (proj1 (is_Some_overwrite _ _ _ _ k Htr) Hk).
  - exact (proj2 (is_Some_overwrite _ _ _ _ k Htr) Hk).
Qed.

Lemma agree_trans w1 w2 w3 : agree w1 w2 -> agree w2 w3 -> agree w1 w3.
Proof.
  intros (H1 & H2 & H3 & H4 & H5 & H6) (H1' & H2' & H3' & H4' & H5' & H6').
  unfold agree. repeat split; try congruence; intros Hk.
  - apply H6', H6, Hk.
  - apply H6, H6', Hk.
Qed.

Lemma foldl_apply_event_agree l :
  forall w w',
    agree w w' ->
    agree (foldl apply_event w l)
          (foldl apply_event w' (List.filter (fun e => negb (is_cancellation e)) l)).
Proof.
  induction l as [|e l IH]; intros w w' H; simpl; [exact H|].
  destruct e as [requestId driverId|requestId driverId reason|tripId reason]; simpl.
  - apply IH, acceptBooking_agree, H.
  - apply IH, rejectBooking_agree, H.
  - apply IH. eapply agree_trans; [apply cancelTrip_agree | exact H].
Qed.

Lemma enter_agree t w w' :
  agree w w' -> agree (enter t w) (enter (without_cancellations t) w').
Proof.
  intros H. unfold enter, without_cancellations. simpl.
  apply foldl_apply_event_agree.
  agree_fields w w' H. unfold agree. simpl. repeat split; apply H.
Qed.

Lemma expire_request_agree requestId w w' :
  agree w w' -> agree (expire_request requestId w) (expire_request requestId w').
Proof.
  intros H. agree_fields w w' H. unfold agree. simpl. repeat split; apply H.
Qed.

Lemma insert_request_agree tripId driverId w w' :
  agree w w' ->
  fst (insert_request tripId driverId w) = fst (insert_request tripId driverId w')
  /\ agree (snd (insert_request tripId driverId w))
           (snd (insert_request tripId driverId w')).
Proof.
  intros H. agree_fields w w' H. unfold insert_request. simpl.
  destruct (negb _); simpl; [split; [reflexivity|]; repeat split; apply H|].
  destruct (br !! sq); simpl; [split; [reflexivity|]; repeat split; apply H|].
  assert (Hfk : bool_decide (is_Some (tr !! tripId))
                = bool_decide (is_Some (tr' !! tripId)))
    by (apply bool_decide_ext, H).
  rewrite Hfk. destruct (_ && _); simpl; (split; [reflexivity|]);
    unfold agree; simpl; repeat split; apply H.
Qed.

Ltac resolved_agree H :=
  simpl; split; [reflexivity | split; [exact H | reflexivity]].

Lemma waitForDriverResponse_agree requestId timeout startTime sched :
  forall w w',
    agree w w' ->
    run_agree (waitForDriverResponse requestId timeout startTime sched w)
              (waitForDriverResponse requestId timeout startTime
                 (map without_cancellations sched) w').
Proof.
  induction sched as [|t|t u rest IH1 IH2] using turns_ind2; intros w w' H.
  - exact H.
  - pose proof (enter_agree t w w' H) as H1.
    cbn [map waitForDriverResponse without_cancellations turn_refused].
    fold (without_cancellations t).
    destruct (turn_refused t); [exact H1|].
    pose proof H1 as (Hbr & _ & _ & _ & Hnow & _).
    rewrite <- Hbr, <- Hnow.
    destruct (booking_requests (enter t w) !! requestId) as [r|];
      [|resolved_agree H1].
    destruct (br_status r); try resolved_agree H1;
      destruct (bool_decide _); exact H1.
  - pose proof (enter_agree t w w' H) as H1.
    pose proof (enter_agree u _ _ H1) as H2.
    cbn [map waitForDriverResponse without_cancellations turn_refused].
    fold (without_cancellations t). fold (without_cancellations u).
    change (without_cancellations u :: map without_cancellations rest)
      with (map without_cancellations (u :: rest)).
    destruct (turn_refused t); [apply IH2, H1|].
    pose proof H1 as (Hbr & _ & _ & _ & Hnow & _).
    rewrite <- Hbr, <- Hnow.
    destruct (booking_requests (enter t w) !! requestId) as [r|];
      [|resolved_agree H1].
    assert (Hgo : run_agree
      (if bool_decide (now (enter t w) - startTime > timeout)
       then if turn_refused u
            then waitForDriverResponse requestId timeout startTime rest
                   (enter u (enter t w))
            else Resolved false (expire_request requestId (enter u (enter t w))) rest
       else waitForDriverResponse requestId timeout startTime (u :: rest) (enter t w))
      (if bool_decide (now (enter t w) - startTime > timeout)
       then if turn_refused u
            then waitForDriverResponse requestId timeout startTime
                   (map without_cancellations rest)
                   (enter (without_cancellations u) (enter (without_cancellations t) w'))
            else Resolved false
                   (expire_request requestId
                      (enter (without_cancellations u)
                         (enter (without_cancellations t) w')))
                   (map without_cancellations rest)
       else waitForDriverResponse requestId timeout startTime
              (map without_cancellations (u :: rest))
              (enter (without_cancellations t) w'))).
    { destruct (bool_decide _); [|apply IH2, H1].
      destruct (turn_refused u); [apply IH1, H2|].
      simpl. split; [reflexivity|]. split; [|reflexivity].
      apply expire_request_agree, H2. }
    destruct (br_status r); try exact Hgo; resolved_agree H1.
Qed.

Lemma sendAssignmentRequest_agree tripId driverId sched w w' :
  agree w w' ->
  run_agree (sendAssignmentRequest tripId driverId sched w)
            (sendAssignmentRequest tripId driverId
               (map without_cancellations sched) w').
Proof.
  intros H. destruct sched as [|t rest]; [exact H|].
  pose proof (enter_agree t w w' H) as H1.
  cbn [map sendAssignmentRequest without_cancellations turn_refused].
  fold (without_cancellations t).
  destruct (turn_refused t); [resolved_agree H1|].
  destruct (insert_request_agree tripId driverId _ _ H1) as [Hfst Hsnd].
  destruct (insert_request tripId driverId (enter t w)) as [c w2].
  destruct (insert_request tripId driverId (enter (without_cancellations t) w'))
    as [c' w2'].
  simpl in Hfst, Hsnd. subst c'.
  destruct c as [request|msg]; [|resolved_agree Hsnd].
  pose proof Hsnd as (_ & _ & _ & _ & <- & _).
  apply waitForDriverResponse_agree, Hsnd.
Qed.

(** C8 (amended): a cancellation of the trip has no bearing on a wait.
    Run against any schedule and against the same schedule with every
    cancellation taken out, [waitForDriverResponse] and
    [sendAssignmentRequest] are suspended at the same points, resolve
    after the same turns with the same answer, and leave the same
    booking requests; the two stores differ in rows of [trips] only.
    [findAndAssignDriver] ends the same way in both as well. *)
Theorem wait_ignores_cancellation tripData driver requestId timeout startTime sched w :
  run_agree (waitForDriverResponse requestId timeout startTime sched w)
            (waitForDriverResponse requestId timeout startTime
               (map without_cancellations sched) w)
  /\ run_agree (sendAssignmentRequest (tripId tripData) driver sched w)
               (sendAssignmentRequest (tripId tripData) driver
                  (map without_cancellations sched) w)
  /\ run_agree (findAndAssignDriver tripData sched w)
               (findAndAssignDriver tripData (map without_cancellations sched) w).
Proof.
  split; [apply waitForDriverResponse_agree, agree_refl|].
  split; [apply sendAssignmentRequest_agree, agree_refl|].
  destruct sched as [|t rest]; [simpl; apply agree_refl|].
  simpl map. rewrite !findAndAssignDriver_throws. simpl.
  split; [reflexivity|]. split; [|reflexivity].
  apply enter_agree, agree_refl.
Qed.

(** ** The worked attempts *)

Lemma north_world_none_pending : none_pending north_world 10.
Proof.
  intros id (r & Hr & _). simpl in Hr. rewrite lookup_empty in Hr. discriminate.
Qed.

(** C8, as stated, fails: the trip is offered to driver 7 and cancelled
    by its client one second later.  Half a minute on the wait is still
    suspended on its poll and the request is still [pending]; the wait
    ends only when the poll has gone past the 60 seconds, with the answer
    it gives to any unanswered offer. *)
Lemma wait_outlasts_cancellation :
  (exists w',
      sendAssignmentRequest 10 7 cancelled_and_waiting north_world = Suspended w'
      /\ trip_state <$> trips w' !! 10 = Some trip_cancelled
      /\ status_of w' 1 = Some pending
      /\ now w' = 31000)
  /\ exists w',
      sendAssignmentRequest 10 7 cancelled_and_expired north_world
      = Resolved false w' []
      /\ trip_state <$> trips w' !! 10 = Some trip_cancelled
      /\ status_of w' 1 = Some expired
      /\ now w' = 63000.
Proof.
  split; eexists; (split; [vm_compute; reflexivity|]);
    repeat split; vm_compute; reflexivity.
Qed.



(** * Further properties *)

(** ** The offers a driver sees *)

Lemma insert_by_created_at_perm x l : insert_by_created_at x l ≡ₚ x :: l.
Proof.
  induction l as [|y l IH]; simpl; [reflexivity|].
  destruct (bool_decide _); [reflexivity|].
  rewrite IH. apply Permutation_swap.
Qed.

Lemma getPendingRequests_perm driverId w :
  getPendingRequests driverId w ≡ₚ pending_rows driverId w.
Proof.
  unfold getPendingRequests.
  induction (pending_rows driverId w) as [|x l IH]; simpl; [reflexivity|].
  rewrite insert_by_created_at_perm, IH. reflexivity.
Qed.



(** The rows of the list: the driver's pending requests that have not
    reached [expires_at] and whose trip exists, each with its trip. *)
Lemma getPendingRequests_rows driverId w br t :
  (br, t) ∈ getPendingRequests driverId w <->
  exists id,
    booking_requests w !! id = Some br
    /\ trips w !! br_trip_id br = Some t
    /\ br_driver_id br = driverId
    /\ br_status br = pending
    /\ br_expires_at br > now w.
Proof.
  rewrite (getPendingRequests_perm driverId w).
  unfold pending_rows. rewrite list_elem_of_bind. split.
  - intros ([id r] & Hin & Hkv). apply elem_of_map_to_list in Hkv. simpl in Hin.
    destruct (trips w !! br_trip_id r) as [t'|] eqn:Ht; [|inversion Hin].
    destruct (_ && _) eqn:Hcond in Hin; [|inversion Hin].
    apply list_elem_of_singleton in Hin. injection Hin as -> ->.
    repeat (apply andb_prop in Hcond; destruct Hcond as [Hcond ?]).
    repeat match goal with
           | H : bool_decide _ = true |- _ => apply bool_decide_eq_true_1 in H
           end.
    exists id. repeat split; assumption.
  - intros (id & Hr & Ht & Hd & Hs & He).
    exists (id, br). split; [|apply elem_of_map_to_list; exact Hr].
    simpl. rewrite Ht.
    rewrite !bool_decide_eq_true_2 by assumption. simpl.
    apply list_elem_of_singleton. reflexivity.
Qed.

Lemma insert_request_trip_exists tripId driverId w r w2 :
  insert_request tripId driverId w = (Returned r, w2) ->
  is_Some (trips w !! tripId).
Proof.
  unfold insert_request.
  destruct (negb _); [discriminate|].
  destruct (booking_requests w !! booking_requests_seq w); [discriminate|].
  destruct (bool_decide (is_Some (trips w !! tripId))) eqn:Hfk; [|discriminate].
  intros _. apply bool_decide_eq_true_1 in Hfk. exact Hfk.
Qed.

(** X1: a request inserted by the dispatch is listed to its driver, with
    its trip, from the moment of the INSERT until 60 seconds have passed
    (while nobody answers it), and is never listed to another driver. *)
Theorem offer_listed_until_expiry tripId driverId w r w2 :
  insert_request tripId driverId w = (Returned r, w2) ->
  exists t,
    trips w !! tripId = Some t
    /\ (forall dt,
           (r, t) ∈ getPendingRequests driverId (with_now w2 (now w2 + dt))
           <-> dt < 60000)
    /\ (forall d' t' dt,
           d' <> driverId ->
           (r, t') ∉ getPendingRequests d' (with_now w2 (now w2 + dt))).
Proof.
  intros Hins.
  destruct (insert_request_trip_exists _ _ _ _ _ Hins) as [t Ht].
  destruct (insert_request_returned _ _ _ _ _ Hins)
    as (Hfree & Hr & Hreq & Hnow & _ & _ & Htrips).
  exists t. split; [exact Ht|]. split.
  - intros dt. rewrite getPendingRequests_rows. simpl. rewrite Hreq, Htrips, Hnow.
    split.
    + intros (id & _ & _ & _ & _ & He). subst r. simpl in He. lia.
    + intros Hdt. exists (booking_requests_seq w).
      split; [apply lookup_insert_eq|]. subst r. simpl.
      repeat split; [exact Ht | lia].
  - intros d' t' dt Hne Hin. apply getPendingRequests_rows in Hin.
    destruct Hin as (id & _ & _ & Hd & _). subst r. simpl in Hd. congruence.
Qed.

Lemma offer_listed_until_expiry_witness :
  exists r w2 t,
    insert_request 10 7 north_world = (Returned r, w2)
    /\ trips north_world !! 10 = Some t
    /\ (r, t) ∈ getPendingRequests 7 (with_now w2 (now w2 + 59999))
    /\ (r, t) ∉ getPendingRequests 7 (with_now w2 (now w2 + 60000)).
Proof.
  assert (Hins : insert_request 10 7 north_world
                 = (Returned (BookingRequest 1 10 7 pending None None None 60000 0),
                    snd (insert_request 10 7 north_world)))
    by (vm_compute; reflexivity).
  destruct (offer_listed_until_expiry 10 7 north_world _ _ Hins)
    as (t & Ht & Hlisted & _).
  eexists _, _, t. split; [exact Hins|]. split; [exact Ht|]. split.
  - apply Hlisted. lia.
  - intros Hin. apply Hlisted in Hin. lia.
Defined.

Lemma invoke_returned requestId driverId i w r w' :
  invoke requestId driverId i w = (Returned r, w') ->
  br_status r = written_status i
  /\ booking_requests w' = <[requestId := r]> (booking_requests w)
  /\ now w' = now w
  /\ forall k, is_Some (trips w' !! k) <-> is_Some (trips w !! k).
Proof.
  destruct i as [|reason]; simpl.
  - unfold acceptBooking, update_request_of_driver.
    destruct (booking_requests w !! requestId) as [r0|]; [|discriminate].
    destruct (decide (br_driver_id r0 = driverId)); [|discriminate].
    simpl. intros [= <- <-]. simpl.
    split; [reflexivity|]. split; [reflexivity|]. split; [reflexivity|].
    intros k. apply is_Some_alter.
  - unfold rejectBooking, update_request_of_driver.
    destruct (booking_requests w !! requestId) as [r0|]; [|discriminate].
    destruct (decide (br_driver_id r0 = driverId)); [|discriminate].
    simpl. intros [= <- <-]. simpl.
    split; [reflexivity|]. split; [reflexivity|]. split; [reflexivity|].
    intros k. reflexivity.
Qed.

(** X2: once [acceptBooking] or [rejectBooking] has succeeded on a
    request, [getPendingRequests] returns that request to no driver any
    more, and every other request is stored and listed exactly as
    before. *)
Theorem answered_request_is_unlisted requestId driverId i w r w' :
  invoke requestId driverId i w = (Returned r, w') ->
  (forall d' x,
      x ∈ getPendingRequests d' w' ->
      booking_requests w' !! requestId <> Some (fst x))
  /\ (forall d' id br,
         id <> requestId ->
         booking_requests w !! id = Some br ->
         booking_requests w' !! id = Some br
         /\ (listed d' w' br <-> listed d' w br)).
Proof.
  intros Hinv.
  destruct (invoke_returned _ _ _ _ _ _ Hinv) as (Hst & Hreq & Hnow & Htrips).
  assert (Hnp : br_status r <> pending)
    by (rewrite Hst; destruct i; discriminate).
  split.
  - intros d' [br t] Hin Hlook. simpl in Hlook.
    apply getPendingRequests_rows in Hin.
    destruct Hin as (id' & _ & _ & _ & Hp & _).
    rewrite Hreq, lookup_insert_eq in Hlook. congruence.
  - intros d' id br Hne Hbr.
    assert (Hbr' : booking_requests w' !! id = Some br).
    { rewrite Hreq, lookup_insert_ne by congruence. exact Hbr. }
    split; [exact Hbr'|]. unfold listed. split.
    + intros (t & Hin). apply getPendingRequests_rows in Hin.
      destruct Hin as (id' & _ & Ht & Hd & Hp & He).
      destruct (proj1 (Htrips _) (mk_is_Some _ _ Ht)) as [t0 Ht0].
      exists t0. apply getPendingRequests_rows.
      exists id. rewrite <- Hnow. repeat split; assumption.
    + intros (t & Hin). apply getPendingRequests_rows in Hin.
      destruct Hin as (id' & _ & Ht & Hd & Hp & He).
      destruct (proj2 (Htrips _) (mk_is_Some _ _ Ht)) as [t0 Ht0].
      exists t0. apply getPendingRequests_rows.
      exists id. rewrite Hnow. repeat split; assumption.
Qed.

Lemma answered_request_is_unlisted_witness :
  listed 7 fresh_request_world (BookingRequest 1 10 7 pending None None None 60000 0)
  /\ forall x,
      x ∈ getPendingRequests 7 (snd (invoke 1 7 (InvokeReject "busy") fresh_request_world)) ->
      booking_requests (snd (invoke 1 7 (InvokeReject "busy") fresh_request_world)) !! 1
      <> Some (fst x).
Proof.
  split.
  - exists (Trip 10 3 None trip_pending None 0). vm_compute. left.
  - assert (Hinv : invoke 1 7 (InvokeReject "busy") fresh_request_world
                   = (Returned (set_rejected "busy" 5000
                                  (BookingRequest 1 10 7 pending None None None 60000 0)),
                      snd (invoke 1 7 (InvokeReject "busy") fresh_request_world)))
      by (vm_compute; reflexivity).
    exact (proj1 (answered_request_is_unlisted 1 7 _ _ _ _ Hinv) 7).
Defined.

(** X3: cancelling a trip withdraws none of its offers.  The requests
    [getPendingRequests] returns are the same before and after
    [Trip.cancelTrip]; after a successful cancellation the requests of
    that trip are returned joined to a cancelled trip. *)
Theorem cancelled_trip_stays_offered tripId reason w d :
  (forall br, listed d (snd (cancelTrip tripId reason w)) br <-> listed d w br)
  /\ (forall cancelled w' br t,
         cancelTrip tripId reason w = (Returned cancelled, w') ->
         (br, t) ∈ getPendingRequests d w' ->
         br_trip_id br = tripId ->
         trip_state t = trip_cancelled).
Proof.
  assert (Hreq := cancelTrip_requests tripId reason w).
  assert (Hag := cancelTrip_agree tripId reason w).
  destruct Hag as (_ & _ & _ & _ & Hnow & Htrips).
  split.
  - intros br. unfold listed. split.
    + intros (t & Hin). apply getPendingRequests_rows in Hin.
      destruct Hin as (id & Hr & Ht & Hd & Hp & He).
      destruct (proj1 (Htrips _) (mk_is_Some _ _ Ht)) as [t0 Ht0].
      exists t0. apply getPendingRequests_rows.
      exists id. rewrite <- Hreq, <- Hnow. repeat split; assumption.
    + intros (t & Hin). apply getPendingRequests_rows in Hin.
      destruct Hin as (id & Hr & Ht & Hd & Hp & He).
      destruct (proj2 (Htrips _) (mk_is_Some _ _ Ht)) as [t0 Ht0].
      exists t0. apply getPendingRequests_rows.
      exists id. rewrite Hreq, Hnow. repeat split; assumption.
  - intros cancelled w' br t Hc Hin Htrip.
    apply getPendingRequests_rows in Hin.
    destruct Hin as (id' & _ & Ht & _). rewrite Htrip in Ht.
    unfold cancelTrip in Hc.
    destruct (trips w !! tripId) as [tr|]; [|discriminate].
    destruct (decide (trip_state tr = trip_completed)); [discriminate|].
    injection Hc as <- <-. simpl in Ht.
    rewrite lookup_insert_eq in Ht. injection Ht as <-. reflexivity.
Qed.

Lemma cancelled_trip_stays_offered_witness :
  exists t,
    (BookingRequest 1 10 7 pending None None None 60000 0, t)
      ∈ getPendingRequests 7 (snd (cancelTrip 10 "Cancelled by client" fresh_request_world))
    /\ trip_state t = trip_cancelled.
Proof.
  assert (Hin : (BookingRequest 1 10 7 pending None None None 60000 0,
                 Trip 10 3 None trip_cancelled (Some "Cancelled by client") 5000)
                ∈ getPendingRequests 7
                    (snd (cancelTrip 10 "Cancelled by client" fresh_request_world)))
    by (vm_compute; left).
  eexists. split; [exact Hin|].
  eapply (proj2 (cancelled_trip_stays_offered 10 "Cancelled by client"
                   fresh_request_world 7));
    [|exact Hin|]; reflexivity.
Defined.

(** ** Accepting, then rejecting *)

(** X4: [rejectBooking] never touches [trips].  A driver who accepts a
    request and then rejects it leaves the request rejected and the trip
    still bound to that driver with status [accepted]. *)
Theorem reject_after_accept_keeps_trip_bound requestId driverId reason w r tr :
  booking_requests w !! requestId = Some r ->
  br_driver_id r = driverId ->
  trips w !! br_trip_id r = Some tr ->
  let w1 := snd (acceptBooking requestId driverId w) in
  let w2 := snd (rejectBooking requestId driverId reason w1) in
  succeeded (fst (rejectBooking requestId driverId reason w1)) = true
  /\ trips w2 = trips w1
  /\ status_of w2 requestId = Some rejected
  /\ exists tr',
      trips w2 !! br_trip_id r = Some tr'
      /\ trip_driver_id tr' = Some driverId
      /\ trip_state tr' = trip_accepted.
Proof.
  intros Hr Hd Htr w1 w2.
  assert (Hr1 : booking_requests w1 !! requestId = Some (set_accepted (now w) r)).
  { unfold w1, acceptBooking.
    rewrite (update_request_of_driver_hit _ _ _ _ r Hr Hd). simpl.
    apply lookup_insert_eq. }
  assert (Htr1 : trips w1 !! br_trip_id r = Some (bind_driver driverId (now w) tr)).
  { unfold w1, acceptBooking.
    rewrite (update_request_of_driver_hit _ _ _ _ r Hr Hd). simpl.
    rewrite lookup_alter_eq, Htr. reflexivity. }
  assert (Hrej : rejectBooking requestId driverId reason w1
                 = (Returned (set_rejected reason (now w1) (set_accepted (now w) r)),
                    with_requests w1
                      (<[requestId := set_rejected reason (now w1) (set_accepted (now w) r)]>
                         (booking_requests w1)))).
  { unfold rejectBooking.
    rewrite (update_request_of_driver_hit _ _ _ _ _ Hr1 Hd). reflexivity. }
  unfold w2. rewrite Hrej. simpl.
  split; [reflexivity|]. split; [reflexivity|]. split.
  - unfold status_of. simpl. rewrite lookup_insert_eq. reflexivity.
  - eexists. split; [exact Htr1|]. split; reflexivity.
Qed.

Lemma reject_after_accept_keeps_trip_bound_witness :
  let w1 := snd (acceptBooking 1 7 fresh_request_world) in
  let w2 := snd (rejectBooking 1 7 "changed my mind" w1) in
  succeeded (fst (rejectBooking 1 7 "changed my mind" w1)) = true
  /\ trips w2 = trips w1
  /\ status_of w2 1 = Some rejected
  /\ exists tr',
      trips w2 !! 10 = Some tr'
      /\ trip_driver_id tr' = Some 7
      /\ trip_state tr' = trip_accepted.
Proof.
  apply (reject_after_accept_keeps_trip_bound 1 7 "changed my mind"
           fresh_request_world
           (BookingRequest 1 10 7 pending None None None 60000 0)
           (Trip 10 3 None trip_pending None 0)); reflexivity.
Defined.

(** ** What an attempt leaves behind *)

(** What one event can do to one row of [booking_requests]. *)
Lemma apply_event_row w e id :
  booking_requests (apply_event w e) !! id = booking_requests w !! id
  \/ exists r,
      booking_requests w !! id = Some r
      /\ ((is_acceptance e = true
           /\ booking_requests (apply_event w e) !! id = Some (set_accepted (now w) r))
          \/ exists reason,
              booking_requests (apply_event w e) !! id
              = Some (set_rejected reason (now w) r)).
Proof.
  destruct e as [requestId driverId|requestId driverId reason|tripId reason]; simpl.
  - unfold acceptBooking, update_request_of_driver.
    destruct (booking_requests w !! requestId) as [r|] eqn:Hr; [|left; reflexivity].
    destruct (decide (br_driver_id r = driverId)); [|left; reflexivity].
    simpl. destruct (decide (requestId = id)) as [->|Hne].
    + right. exists r. split; [exact Hr|]. left. split; [reflexivity|].
      apply lookup_insert_eq.
    + left. apply lookup_insert_ne. exact Hne.
  - unfold rejectBooking, update_request_of_driver.
    destruct (booking_requests w !! requestId) as [r|] eqn:Hr; [|left; reflexivity].
    destruct (decide (br_driver_id r = driverId)); [|left; reflexivity].
    simpl. destruct (decide (requestId = id)) as [->|Hne].
    + right. exists r. split; [exact Hr|]. right. exists reason.
      apply lookup_insert_eq.
    + left. apply lookup_insert_ne. exact Hne.
  - left. rewrite cancelTrip_requests. reflexivity.
Qed.

(** A property of one row that rejections keep, and acceptances too where
    there are any, holds after a turn. *)
Lemma enter_row_invariant (Q : option booking_request -> Prop) t id :
  (forall r reason tm, Q (Some r) -> Q (Some (set_rejected reason tm r))) ->
  (Forall (fun e => is_acceptance e = false) (turn_events t)
   \/ forall r tm, Q (Some r) -> Q (Some (set_accepted tm r))) ->
  forall w, Q (booking_requests w !! id) -> Q (booking_requests (enter t w) !! id).
Proof.
  intros Hrej Hacc w. unfold enter.
  change (booking_requests w !! id)
    with (booking_requests (with_now w (now w + turn_elapsed t)) !! id).
  generalize (with_now w (now w + turn_elapsed t)).
  induction (turn_events t) as [|e l IH]; intros w0 HQ; simpl; [exact HQ|].
  apply IH.
  - destruct Hacc as [Hfree|Hacc]; [left; inversion Hfree; assumption | right; exact Hacc].
  - destruct (apply_event_row w0 e id) as [->|(r & Hr & [[He ->]|[reason ->]])];
      [exact HQ| |].
    + rewrite Hr in HQ. destruct Hacc as [Hfree|Hacc].
      * inversion Hfree; congruence.
      * apply Hacc, HQ.
    + rewrite Hr in HQ. apply Hrej, HQ.
Qed.

(** The turns that are left when a call resolves are the end of the
    schedule it was given. *)
Lemma waitForDriverResponse_suffix requestId timeout startTime sched :
  forall w b w' rest,
    waitForDriverResponse requestId timeout startTime sched w = Resolved b w' rest ->
    exists used, sched = used ++ rest.
Proof.
  induction sched as [|t|t u rest0 IH1 IH2] using turns_ind2; intros w b w' rest.
  - discriminate.
  - simpl. destruct (turn_refused t); [discriminate|].
    destruct (booking_requests (enter t w) !! requestId) as [r|].
    + destruct (br_status r); try (destruct (bool_decide _); discriminate);
        intros [= <- <- <-]; exists [t]; reflexivity.
    + intros [= <- <- <-]. exists [t]. reflexivity.
  - cbn [waitForDriverResponse].
    assert (Hnext : forall w0,
      waitForDriverResponse requestId timeout startTime (u :: rest0) w0
      = Resolved b w' rest -> exists used, t :: u :: rest0 = used ++ rest).
    { intros w0 H. destruct (IH2 _ _ _ _ H) as [used ->]. exists (t :: used). reflexivity. }
    destruct (turn_refused t); [apply Hnext|].
    destruct (booking_requests (enter t w) !! requestId) as [r|].
    + assert (Hgo :
        (if bool_decide (now (enter t w) - startTime > timeout)
         then if turn_refused u
              then waitForDriverResponse requestId timeout startTime rest0
                     (enter u (enter t w))
              else Resolved false (expire_request requestId (enter u (enter t w))) rest0
         else waitForDriverResponse requestId timeout startTime (u :: rest0)
                (enter t w)) = Resolved b w' rest ->
        exists used, t :: u :: rest0 = used ++ rest).
      { destruct (bool_decide _); [|apply Hnext].
        destruct (turn_refused u).
        - intros H. destruct (IH1 _ _ _ _ H) as [used ->].
          exists (t :: u :: used). reflexivity.
        - intros [= <- <- <-]. exists [t; u]. reflexivity. }
      destruct (br_status r); try exact Hgo;
        intros [= <- <- <-]; exists [t]; reflexivity.
    + intros [= <- <- <-]. exists [t]. reflexivity.
Qed.

Lemma sendAssignmentRequest_suffix tripId driverId sched w b w' rest :
  sendAssignmentRequest tripId driverId sched w = Resolved b w' rest ->
  exists used, sched = used ++ rest.
Proof.
  unfold sendAssignmentRequest. destruct sched as [|t rest0]; [discriminate|].
  destruct (turn_refused t); [intros [= <- <- <-]; exists [t]; reflexivity|].
  destruct (insert_request tripId driverId (enter t w)) as [[request|msg] w2].
  - intros H. destruct (waitForDriverResponse_suffix _ _ _ _ _ _ _ _ H) as [used ->].
    exists (t :: used). reflexivity.
  - intros [= <- <- <-]. exists [t]. reflexivity.
Qed.

(** What a resolved attempt has done to the store: either nothing was
    inserted and the requests only settled, or exactly one request was
    inserted, under a fresh key, for this trip and this driver, and the
    answer of the attempt is what that request reads. *)
Lemma sendAssignmentRequest_resolved tripId driverId sched w b w' rest :
  sendAssignmentRequest tripId driverId sched w = Resolved b w' rest ->
  (b = false /\ settles w w')
  \/ exists id r w2,
      booking_requests w !! id = None
      /\ settles w (with_requests w2 (delete id (booking_requests w2)))
      /\ settles w2 w'
      /\ booking_requests w' !! id = Some r
      /\ br_trip_id r = tripId /\ br_driver_id r = driverId
      /\ resolution b (Some (br_status r)).
Proof.
  unfold sendAssignmentRequest. destruct sched as [|t rest0]; [discriminate|].
  pose proof (enter_settles t w) as Hs1.
  destruct (turn_refused t); [intros [= <- <- <-]; left; split; [reflexivity | exact Hs1]|].
  destruct (insert_request tripId driverId (enter t w)) as [[request|msg] w2] eqn:Hins.
  - intros Hwait. right.
    destruct (insert_request_returned _ _ _ _ _ Hins) as (Hfree & Hreq & Hbr & _).
    pose proof (waitForDriverResponse_settles (br_id request) ACCEPT_TIMEOUT
                  (now w2) rest0 w2) as Hs2.
    rewrite Hwait in Hs2. simpl in Hs2.
    pose proof (waitForDriverResponse_resolved _ _ _ _ _ _ _ _ Hwait) as Hres.
    assert (Hid : br_id request = booking_requests_seq (enter t w))
      by (rewrite Hreq; reflexivity).
    rewrite Hid in *.
    assert (Hw2 : booking_requests w2 !! booking_requests_seq (enter t w) = Some request)
      by (rewrite Hbr; apply lookup_insert_eq).
    pose proof (Hs2 (booking_requests_seq (enter t w))) as Hrow. rewrite Hw2 in Hrow.
    destruct (booking_requests w' !! booking_requests_seq (enter t w)) as [r|] eqn:Hr';
      [|contradiction].
    simpl in Hrow. destruct Hrow as (Htrip & Hdrv & _).
    exists (booking_requests_seq (enter t w)), r, w2.
    split.
    { pose proof (Hs1 (booking_requests_seq (enter t w))) as H. rewrite Hfree in H.
      destruct (booking_requests w !! booking_requests_seq (enter t w));
        [contradiction | reflexivity]. }
    split.
    { eapply settles_trans; [exact Hs1|]. apply settles_same_requests. simpl.
      rewrite Hbr, delete_insert_id by exact Hfree. reflexivity. }
    split; [exact Hs2|]. split; [exact Hr'|].
    split; [rewrite Htrip, Hreq; reflexivity|].
    split; [rewrite Hdrv, Hreq; reflexivity|].
    unfold status_of in Hres. rewrite Hr' in Hres. exact Hres.
  - intros [= <- <- <-]. left. split; [reflexivity|].
    destruct (insert_request_threw _ _ _ _ _ Hins) as (Hreq & _).
    eapply settles_trans; [exact Hs1 | apply settles_same_requests; exact Hreq].
Qed.

(** X5: an accepted offer is in the store.  When [sendAssignmentRequest]
    answers true, the store holds a request that this call created, for
    this trip and this driver, and its status is [accepted]. *)
Theorem accepted_offer_is_in_the_store tripId driverId sched w w' rest :
  sendAssignmentRequest tripId driverId sched w = Resolved true w' rest ->
  exists id r,
    booking_requests w !! id = None
    /\ booking_requests w' !! id = Some r
    /\ br_trip_id r = tripId
    /\ br_driver_id r = driverId
    /\ br_status r = accepted.
Proof.
  intros Hsend.
  destruct (sendAssignmentRequest_resolved _ _ _ _ _ _ _ Hsend)
    as [[Hb _]|(id & r & w2 & Hnew & _ & _ & Hr & Ht & Hd & Hres)]; [discriminate|].
  exists id, r. repeat split; try assumption.
  simpl in Hres. destruct (br_status r); try reflexivity; try discriminate.
  contradiction.
Qed.

Lemma accepted_offer_is_in_the_store_witness :
  exists w',
    sendAssignmentRequest 10 7 [quiet; Turn 1000 [DriverAccepts 1 7] false] north_world
    = Resolved true w' []
    /\ exists id r,
        booking_requests north_world !! id = None
        /\ booking_requests w' !! id = Some r
        /\ br_trip_id r = 10 /\ br_driver_id r = 7 /\ br_status r = accepted.
Proof.
  assert (exists w',
             sendAssignmentRequest 10 7 [quiet; Turn 1000 [DriverAccepts 1 7] false]
               north_world = Resolved true w' []) as [w' Hrun].
  { eexists. vm_compute. reflexivity. }
  exists w'. split; [exact Hrun|].
  exact (accepted_offer_is_in_the_store _ _ _ _ _ _ Hrun).
Defined.

(** X6: an attempt that has come back leaves no offer open.  If no
    request of a trip is [pending] when [sendAssignmentRequest] starts,
    none is [pending] when it answers, true or false. *)
Theorem offer_is_closed_when_the_attempt_returns
    tripId driverId sched w b w' rest trip :
  sendAssignmentRequest tripId driverId sched w = Resolved b w' rest ->
  none_pending w trip -> none_pending w' trip.
Proof.
  intros Hsend Hn.
  destruct (sendAssignmentRequest_resolved _ _ _ _ _ _ _ Hsend)
    as [[_ Hs]|(k & r & w2 & _ & Hs1 & Hs2 & Hr & _ & _ & Hres)].
  - exact (settles_none_pending _ _ _ Hs Hn).
  - intros id Hp. destruct (decide (k = id)) as [->|Hne].
    + destruct Hp as (r' & Hr' & _ & Hpend). rewrite Hr in Hr'. injection Hr' as <-.
      simpl in Hres. rewrite Hpend in Hres. exact Hres.
    + apply (settles_pending_for _ _ _ _ Hs2) in Hp.
      apply (Hn id). apply (settles_pending_for _ _ _ _ Hs1).
      destruct Hp as (r' & Hr' & Ht & Hpend). exists r'. simpl.
      rewrite lookup_delete_ne by exact Hne. auto.
Qed.

Lemma offer_is_closed_when_the_attempt_returns_witness :
  exists w',
    sendAssignmentRequest 10 7 cancelled_and_expired north_world = Resolved false w' []
    /\ none_pending w' 10.
Proof.
  assert (exists w',
             sendAssignmentRequest 10 7 cancelled_and_expired north_world
             = Resolved false w' []) as [w' Hrun].
  { eexists. vm_compute. reflexivity. }
  exists w'. split; [exact Hrun|].
  exact (offer_is_closed_when_the_attempt_returns _ _ _ _ _ _ _ _ Hrun
           north_world_none_pending).
Defined.

(** ** Acceptance and expiry along a wait *)

Lemma expire_request_row requestId w id :
  booking_requests (expire_request requestId w) !! id
  = if decide (requestId = id)
    then set_status expired <$> booking_requests w !! id
    else booking_requests w !! id.
Proof.
  unfold expire_request. simpl. destruct (decide (requestId = id)) as [->|Hne].
  - apply lookup_alter_eq.
  - apply lookup_alter_ne. exact Hne.
Qed.

(** The wait under a schedule without acceptances never reads
    [accepted] from a request that was not accepted when it began. *)
Lemma waitForDriverResponse_accept_free requestId timeout startTime sched :
  forall w b w' rest,
    accept_free sched ->
    status_of w requestId <> Some accepted ->
    waitForDriverResponse requestId timeout startTime sched w = Resolved b w' rest ->
    b = false.
Proof.
  assert (Henter : forall t w,
            Forall (fun e => is_acceptance e = false) (turn_events t) ->
            status_of w requestId <> Some accepted ->
            status_of (enter t w) requestId <> Some accepted).
  { intros t w Hfree. unfold status_of.
    apply (enter_row_invariant
             (fun o => br_status <$> o <> Some accepted) t requestId).
    - intros r reason tm _. discriminate.
    - left. exact Hfree. }
  induction sched as [|t|t u rest0 IH1 IH2] using turns_ind2;
    intros w b w' rest Hfree Hna.
  - discriminate.
  - inversion Hfree as [|? ? Ht _]; subst.
    specialize (Henter t w Ht Hna). unfold status_of in Henter.
    simpl. destruct (turn_refused t); [discriminate|].
    destruct (booking_requests (enter t w) !! requestId) as [r|].
    + simpl in Henter.
      destruct (br_status r); try (destruct (bool_decide _); discriminate);
        intros [= <- <- <-]; congruence.
    + intros [= <- <- <-]. reflexivity.
  - inversion Hfree as [|? ? Ht Hfree1]; subst.
    inversion Hfree1 as [|? ? Hu Hfree0]; subst.
    pose proof (Henter t w Ht Hna) as Hna1.
    pose proof (Henter u _ Hu Hna1) as Hna2.
    cbn [waitForDriverResponse].
    destruct (turn_refused t); [apply IH2; assumption|].
    unfold status_of in Hna1.
    destruct (booking_requests (enter t w) !! requestId) as [r|] eqn:Hr.
    + assert (Hgo :
        (if bool_decide (now (enter t w) - startTime > timeout)
         then if turn_refused u
              then waitForDriverResponse requestId timeout startTime rest0
                     (enter u (enter t w))
              else Resolved false (expire_request requestId (enter u (enter t w))) rest0
         else waitForDriverResponse requestId timeout startTime (u :: rest0)
                (enter t w)) = Resolved b w' rest -> b = false).
      { destruct (bool_decide _).
        - destruct (turn_refused u); [apply IH1; assumption|].
          intros [= <- <- <-]. reflexivity.
        - apply IH2; [assumption|]. unfold status_of. rewrite Hr. exact Hna1. }
      simpl in Hna1.
      destruct (br_status r); try exact Hgo; intros [= <- <- <-]; congruence.
    + intros [= <- <- <-]. reflexivity.
Qed.

(** X7: no acceptance, no assignment.  Against a schedule in which no
    driver calls [acceptBooking], whatever else happens (rejections,
    cancellations, refused queries), [sendAssignmentRequest] never
    answers true; and the turns it leaves are as free of acceptances. *)
Theorem no_acceptance_no_assignment tripId driverId sched w b w' rest :
  accept_free sched ->
  sendAssignmentRequest tripId driverId sched w = Resolved b w' rest ->
  b = false /\ accept_free rest.
Proof.
  intros Hfree Hsend. split.
  - unfold sendAssignmentRequest in Hsend. destruct sched as [|t rest0]; [discriminate|].
    inversion Hfree as [|? ? _ Hfree0]; subst.
    destruct (turn_refused t); [injection Hsend as <- _ _; reflexivity|].
    destruct (insert_request tripId driverId (enter t w)) as [[request|msg] w2] eqn:Hins;
      [|injection Hsend as <- _ _; reflexivity].
    eapply waitForDriverResponse_accept_free; [exact Hfree0| |exact Hsend].
    destruct (insert_request_returned _ _ _ _ _ Hins) as (_ & Hreq & Hbr & _).
    unfold status_of. rewrite Hbr, Hreq. simpl. rewrite lookup_insert_eq. discriminate.
  - destruct (sendAssignmentRequest_suffix _ _ _ _ _ _ _ Hsend) as [used ->].
    unfold accept_free in *. apply Forall_app in Hfree. tauto.
Qed.

Lemma no_acceptance_no_assignment_witness :
  accept_free [quiet; Turn 1000 [DriverRejects 1 7 "busy"] false; quiet]
  /\ exists w',
      sendAssignmentRequest 10 7
        [quiet; Turn 1000 [DriverRejects 1 7 "busy"] false; quiet] north_world
      = Resolved false w' [quiet]
      /\ accept_free [quiet].
Proof.
  assert (accept_free [quiet; Turn 1000 [DriverRejects 1 7 "busy"] false; quiet])
    as Hfree by (repeat constructor).
  split; [exact Hfree|].
  assert (exists w',
             sendAssignmentRequest 10 7
               [quiet; Turn 1000 [DriverRejects 1 7 "busy"] false; quiet] north_world
             = Resolved false w' [quiet]) as [w' Hrun].
  { eexists. vm_compute. reflexivity. }
  exists w'. split; [exact Hrun|].
  exact (proj2 (no_acceptance_no_assignment _ _ _ _ _ _ _ Hfree Hrun)).
Defined.

(** The wait expires a request only past the timeout. *)
Lemma waitForDriverResponse_expires_late requestId timeout startTime expiresAt sched :
  forall w b w' rest,
    clock_forward sched ->
    (forall r, booking_requests w !! requestId = Some r ->
               br_expires_at r = expiresAt /\ br_status r <> expired) ->
    waitForDriverResponse requestId timeout startTime sched w = Resolved b w' rest ->
    forall r', booking_requests w' !! requestId = Some r' ->
               br_status r' = expired ->
               br_expires_at r' = expiresAt /\ timeout < now w' - startTime.
Proof.
  set (Q := fun o : option booking_request =>
              forall r, o = Some r ->
                        br_expires_at r = expiresAt /\ br_status r <> expired).
  assert (Henter : forall t w, Q (booking_requests w !! requestId) ->
                               Q (booking_requests (enter t w) !! requestId)).
  { intros t. apply enter_row_invariant.
    - intros r reason tm HQ r0 [= <-]. simpl.
      split; [apply (HQ r eq_refl) | discriminate].
    - right. intros r tm HQ r0 [= <-]. simpl.
      split; [apply (HQ r eq_refl) | discriminate]. }
  assert (Hstill : forall w r', Q (booking_requests w !! requestId) ->
                     booking_requests w !! requestId = Some r' ->
                     br_status r' = expired -> False).
  { intros w r' HQ Hr' Hexp. destruct (HQ r' Hr') as [_ Hne]. contradiction. }
  induction sched as [|t|t u rest0 IH1 IH2] using turns_ind2;
    intros w b w' rest Hclock HQ.
  - discriminate.
  - specialize (Henter t w HQ).
    simpl. destruct (turn_refused t); [discriminate|].
    destruct (booking_requests (enter t w) !! requestId) as [r|] eqn:Hr.
    + destruct (br_status r) eqn:Hst;
        try (destruct (bool_decide _); discriminate);
        intros [= <- <- <-] r' Hr' Hexp; exfalso;
        rewrite Hr in Hr'; injection Hr' as <-; congruence.
    + intros [= <- <- <-] r' Hr'. congruence.
  - inversion Hclock as [|? ? Ht Hclock1]; subst.
    inversion Hclock1 as [|? ? Hu Hclock0]; subst.
    pose proof (Henter t w HQ) as HQ1.
    pose proof (Henter u _ HQ1) as HQ2.
    cbn [waitForDriverResponse].
    destruct (turn_refused t); [apply IH2; [exact Hclock1 | exact HQ1]|].
    destruct (booking_requests (enter t w) !! requestId) as [r|] eqn:Hr.
    + assert (Hgo :
        (if bool_decide (now (enter t w) - startTime > timeout)
         then if turn_refused u
              then waitForDriverResponse requestId timeout startTime rest0
                     (enter u (enter t w))
              else Resolved false (expire_request requestId (enter u (enter t w))) rest0
         else waitForDriverResponse requestId timeout startTime (u :: rest0)
                (enter t w)) = Resolved b w' rest ->
        forall r', booking_requests w' !! requestId = Some r' ->
                   br_status r' = expired ->
                   br_expires_at r' = expiresAt /\ timeout < now w' - startTime).
      { destruct (bool_decide (now (enter t w) - startTime > timeout)) eqn:Hlate.
        - apply bool_decide_eq_true_1 in Hlate.
          destruct (turn_refused u); [apply IH1; [exact Hclock0 | exact HQ2]|].
          intros [= <- <- <-] r' Hr' _.
          rewrite expire_request_row in Hr'.
          destruct (decide (requestId = requestId)); [|contradiction].
          destruct (booking_requests (enter u (enter t w)) !! requestId) as [r2|] eqn:Hr2;
            [|discriminate].
          injection Hr' as <-. simpl.
          split; [apply (HQ2 r2 eq_refl)|].
          change (now (expire_request requestId (enter u (enter t w))))
            with (now (enter u (enter t w))).
          rewrite enter_now. lia.
        - apply IH2; [exact Hclock1 | rewrite Hr; exact HQ1]. }
      destruct (br_status r) eqn:Hst; try exact Hgo;
        intros [= <- <- <-] r' Hr' Hexp; exfalso;
        rewrite Hr in Hr'; injection Hr' as <-; congruence.
    + intros [= <- <- <-] r' Hr'. congruence.
Qed.

(** X8: no offer is cut short.  While the clock does not run backwards,
    a request that [sendAssignmentRequest] has inserted reads [expired]
    when the call resolves only if the clock is then past the
    [expires_at] the request was given. *)
Theorem offers_expire_only_past_expires_at tripId driverId sched w b w' rest id r' :
  clock_forward sched ->
  sendAssignmentRequest tripId driverId sched w = Resolved b w' rest ->
  booking_requests w !! id = None ->
  booking_requests w' !! id = Some r' ->
  br_status r' = expired ->
  br_expires_at r' < now w'.
Proof.
  intros Hclock Hsend Hnew Hr' Hexp.
  unfold sendAssignmentRequest in Hsend. destruct sched as [|t rest0]; [discriminate|].
  inversion Hclock as [|? ? _ Hclock0]; subst.
  pose proof (enter_settles t w) as Hs1.
  assert (Hcontra : forall w0, settles w w0 -> booking_requests w0 !! id <> Some r').
  { intros w0 Hs H. specialize (Hs id). rewrite Hnew, H in Hs. exact Hs. }
  destruct (turn_refused t).
  { injection Hsend as _ <- _. destruct (Hcontra _ Hs1 Hr'). }
  destruct (insert_request tripId driverId (enter t w)) as [[request|msg] w2] eqn:Hins.
  - destruct (insert_request_returned _ _ _ _ _ Hins)
      as (Hfree & Hreq & Hbr & Hnow & _).
    assert (Hid : br_id request = booking_requests_seq (enter t w))
      by (rewrite Hreq; reflexivity).
    rewrite Hid in Hsend.
    destruct (decide (id = booking_requests_seq (enter t w))) as [->|Hne].
    + assert (Hstart : forall r, booking_requests w2 !! booking_requests_seq (enter t w)
                                 = Some r ->
                                 br_expires_at r = now (enter t w) + 60000
                                 /\ br_status r <> expired).
      { intros r. rewrite Hbr, lookup_insert_eq. intros [= <-]. rewrite Hreq. simpl.
        split; [reflexivity | discriminate]. }
      destruct (waitForDriverResponse_expires_late
                  (booking_requests_seq (enter t w)) ACCEPT_TIMEOUT (now w2)
                  (now (enter t w) + 60000) rest0 w2 b w' rest
                  Hclock0 Hstart Hsend r' Hr' Hexp) as [He Hlate].
      unfold ACCEPT_TIMEOUT in Hlate. lia.
    + exfalso.
      pose proof (waitForDriverResponse_settles (booking_requests_seq (enter t w))
                    ACCEPT_TIMEOUT (now w2) rest0 w2) as Hs2.
      rewrite Hsend in Hs2. simpl in Hs2.
      specialize (Hs2 id). rewrite Hr', Hbr, lookup_insert_ne in Hs2 by congruence.
      specialize (Hs1 id). rewrite Hnew in Hs1.
      destruct (booking_requests (enter t w) !! id); [contradiction | exact Hs2].
  - injection Hsend as _ <- _.
    destruct (insert_request_threw _ _ _ _ _ Hins) as (Hreq & _).
    exfalso. apply (Hcontra w2); [|exact Hr'].
    eapply settles_trans; [exact Hs1 | apply settles_same_requests; exact Hreq].
Qed.

Lemma offers_expire_only_past_expires_at_witness :
  exists w' r',
    sendAssignmentRequest 10 7 (replicate 63 quiet) north_world = Resolved false w' []
    /\ booking_requests w' !! 1 = Some r'
    /\ br_status r' = expired
    /\ br_expires_at r' < now w'.
Proof.
  assert (Hsend : sendAssignmentRequest 10 7 (replicate 63 quiet) north_world
                  = Resolved false
                      (world_of (sendAssignmentRequest 10 7 (replicate 63 quiet)
                                   north_world)) [])
    by (vm_compute; reflexivity).
  assert (Hclock : clock_forward (replicate 63 quiet))
    by (apply Forall_replicate; simpl; lia).
  eexists _, _. split; [exact Hsend|].
  assert (Hr : booking_requests
                 (world_of (sendAssignmentRequest 10 7 (replicate 63 quiet) north_world))
                 !! 1
               = Some (BookingRequest 1 10 7 expired None None None 61000 1000))
    by (vm_compute; reflexivity).
  split; [exact Hr|]. split; [reflexivity|].
  exact (offers_expire_only_past_expires_at 10 7 (replicate 63 quiet) north_world
           false _ [] 1 _ Hclock Hsend eq_refl Hr eq_refl).
Defined.

(** ** The key of [updateVerificationStatus] *)

Lemma joined_users_after (f : driver_row -> driver_row) driverId
    (d : driver_row) (us : list user_row) :
  d_user_id (f d) = d_user_id d ->
  (us ≫= fun u =>
     if bool_decide (d_user_id (f d) = u_id u)
        && bool_decide (d_user_id (f d) = driverId)
     then [(f d, u)] else [])
  = (fun du => (f (fst du), snd du))
      <$> (us ≫= fun u =>
             if bool_decide (d_user_id d = u_id u)
                && bool_decide (d_user_id d = driverId)
             then [(d, u)] else []).
Proof.
  intros Hfid. induction us as [|u us IHu]; [reflexivity|].
  rewrite !bind_cons, fmap_app, IHu, Hfid. f_equal.
  destruct (_ && _); reflexivity.
Qed.

Lemma joined_rows_after (f : driver_row -> driver_row) driverId
    (ds : list driver_row) (us : list user_row) :
  (forall d, d_user_id (f d) = d_user_id d) ->
  ((f <$> ds) ≫= fun d =>
     us ≫= fun u =>
       if bool_decide (d_user_id d = u_id u) && bool_decide (d_user_id d = driverId)
       then [(d, u)] else [])
  = (fun du => (f (fst du), snd du))
      <$> (ds ≫= fun d =>
             us ≫= fun u =>
               if bool_decide (d_user_id d = u_id u)
                  && bool_decide (d_user_id d = driverId)
               then [(d, u)] else []).
Proof.
  intros Hfid. induction ds as [|d ds IH]; [reflexivity|].
  rewrite fmap_cons, !bind_cons, fmap_app, IH. f_equal.
  apply joined_users_after, Hfid.
Qed.

(** X12: [updateVerificationStatus] selects the driver by the key of the
    row ([drivers.id]), [findById] by the user ([drivers.user_id]).  When
    the row that [findById(k)] returns has another [id] than [k],
    [updateVerificationStatus(k, status)] leaves exactly that driver as it
    was; and it returns null precisely when no row has [id = k]. *)
Theorem updateVerificationStatus_is_keyed_by_row_id k status w d u :
  Driver.findById k w = Some (d, u) ->
  d_id d <> k ->
  Driver.findById k (snd (Driver.updateVerificationStatus k status w)) = Some (d, u)
  /\ (fst (Driver.updateVerificationStatus k status w) = None
      <-> Forall (fun d0 => d_id d0 <> k) (drivers w)).
Proof.
  intros Hfind Hne.
  set (f := fun d0 => if bool_decide (d_id d0 = k)
                      then Driver.set_verification_status status d0 else d0).
  split.
  - unfold Driver.findById, Driver.updateVerificationStatus, Driver.update_where.
    simpl. fold f. rewrite (joined_rows_after f).
    + unfold Driver.findById in Hfind.
      destruct (drivers w ≫= _) as [|[d1 u1] l] eqn:Hrows; [discriminate|].
      simpl in Hfind. injection Hfind as -> ->. simpl.
      unfold f. rewrite bool_decide_eq_false_2 by exact Hne. reflexivity.
    + intros d0. unfold f. destruct (bool_decide _); reflexivity.
  - unfold Driver.updateVerificationStatus, Driver.update_where. simpl.
    induction (drivers w) as [|d0 l IH]; simpl.
    + split; [constructor | reflexivity].
    + destruct (bool_decide (d_id d0 = k)) eqn:Hk; simpl.
      * apply bool_decide_eq_true_1 in Hk. split; [discriminate|].
        intros Hall. inversion Hall; contradiction.
      * apply bool_decide_eq_false_1 in Hk. rewrite IH. split.
        -- intros Hall. constructor; assumption.
        -- intros Hall. inversion Hall; assumption.
Qed.


(** Approving "driver 9" leaves the driver whose details are shown for 9
    pending, and approves the driver of user 7. *)
Lemma updateVerificationStatus_is_keyed_by_row_id_witness :
  exists d u,
    Driver.findById 9 signup_world = Some (d, u)
    /\ d_id d <> 9
    /\ d_verification_status d = v_pending
    /\ Driver.findById 9 (snd (Driver.updateVerificationStatus 9 v_approved signup_world))
       = Some (d, u)
    /\ (d_verification_status ∘ fst)
         <$> Driver.findById 7
               (snd (Driver.updateVerificationStatus 9 v_approved signup_world))
       = Some v_approved.
Proof.
  eexists _, _.
  assert (Hfind : Driver.findById 9 signup_world
                  = Some (DriverRow 1 9 "north" v_pending false 5%R None None,
                          UserRow 9 "+250700000009" "Chantal" active))
    by (vm_compute; reflexivity).
  assert (Hne : d_id (DriverRow 1 9 "north" v_pending false 5%R None None) <> 9)
    by discriminate.
  split; [exact Hfind|]. split; [exact Hne|]. split; [reflexivity|].
  split.
  - exact (proj1 (updateVerificationStatus_is_keyed_by_row_id 9 v_approved signup_world
                    _ _ Hfind Hne)).
  - vm_compute. reflexivity.
Defined.

(** ** Suspending a driver *)

(** X10: [Driver.suspend] is all or nothing on the tables, not on the
    sequence.  For a driver that exists it returns true, every row of
    the driver reads [suspended], exactly one suspension row is appended
    with that driver and reason under the next number of the sequence,
    and [Driver.findById] shows the driver as suspended.  For a user id
    that no driver row carries it throws and no table has changed; yet
    the number that the refused INSERT drew from the sequence is used
    up, unless the id was refused as no INTEGER before the INSERT. *)
Theorem suspend_all_or_nothing driverId reason b :
  let w := office_world b in
  (Exists (fun d => d_user_id d = driverId) (drivers w) ->
   exists b',
     Driver.suspend driverId reason b = (Returned true, b')
     /\ driver_suspensions b'
        = driver_suspensions b
          ++ [SuspensionRow (driver_suspensions_seq b) driverId reason None
                suspension_active (now w) None]
     /\ driver_suspensions_seq b' = driver_suspensions_seq b + 1
     /\ drivers (office_world b')
        = (fun d => if bool_decide (d_user_id d = driverId)
                    then Driver.set_verification_status v_suspended d else d)
            <$> drivers w
     /\ users (office_world b') = users w
     /\ trips (office_world b') = trips w
     /\ booking_requests (office_world b') = booking_requests w
     /\ forall d u,
         Driver.findById driverId w = Some (d, u) ->
         Driver.findById driverId (office_world b')
         = Some (Driver.set_verification_status v_suspended d, u))
  /\ (~ Exists (fun d => d_user_id d = driverId) (drivers w) ->
      exists error b',
        Driver.suspend driverId reason b = (Threw error, b')
        /\ office_world b' = w
        /\ driver_suspensions b' = driver_suspensions b
        /\ driver_suspensions_seq b'
           = if int4 driverId
             then driver_suspensions_seq b + 1
             else driver_suspensions_seq b).
Proof.
  intros w.
  set (f := fun d => if bool_decide (d_user_id d = driverId)
                     then Driver.set_verification_status v_suspended d else d).
  assert (Hf : forall d, d_user_id (f d) = d_user_id d).
  { intros d. unfold f. destruct (bool_decide _); reflexivity. }
  assert (Hex : Exists (fun d => d_user_id d = driverId) (f <$> drivers w)
                <-> Exists (fun d => d_user_id d = driverId) (drivers w)).
  { rewrite !Exists_exists. split.
    - intros (d & Hin & Hd). apply list_elem_of_fmap in Hin as (d0 & -> & Hin).
      exists d0. rewrite Hf in Hd. auto.
    - intros (d & Hin & Hd). exists (f d). split; [|rewrite Hf; exact Hd].
      apply list_elem_of_fmap. exists d. auto. }
  unfold Driver.suspend, Driver.update_where. fold w. fold f. split.
  - intros Hd. rewrite bool_decide_eq_true_2 by (apply Hex; exact Hd).
    eexists. split; [reflexivity|]. simpl.
    repeat (split; [reflexivity|]).
    intros d u Hfind. unfold Driver.findById in *. simpl.
    rewrite (joined_rows_after f); [|exact Hf].
    destruct (drivers w ≫= _) as [|[d1 u1] l] eqn:Hrows; [discriminate|].
    simpl in Hfind. injection Hfind as -> ->. simpl.
    assert ((d, u) ∈ (d, u) :: l) as Hin by constructor.
    rewrite <- Hrows in Hin.
    apply list_elem_of_bind in Hin as (d0 & Hin & _).
    apply list_elem_of_bind in Hin as (u0 & Hin & _).
    destruct (bool_decide (d_user_id d0 = u_id u0)
              && bool_decide (d_user_id d0 = driverId)) eqn:Hc;
      [|inversion Hin].
    apply list_elem_of_singleton in Hin. injection Hin as -> ->.
    apply andb_true_iff in Hc as [_ Hc]. unfold f. rewrite Hc. reflexivity.
  - intros Hd. rewrite bool_decide_eq_false_2 by (rewrite Hex; exact Hd).
    destruct (int4 driverId); do 2 eexists;
      (split; [reflexivity|]); repeat split; destruct b; reflexivity.
Qed.

(** Driver 8 is suspended; before that, a suspension of user 5, who is
    no driver, has used up number 1. *)
Lemma suspend_all_or_nothing_witness :
  exists error b1 b2,
    Driver.suspend 5 "complaints" (BackOffice north_world [] 1) = (Threw error, b1)
    /\ Driver.suspend 8 "complaints" b1 = (Returned true, b2)
    /\ driver_suspensions b2
       = [SuspensionRow 2 8 "complaints" None suspension_active 0 None]
    /\ (d_verification_status ∘ fst) <$> Driver.findById 8 (office_world b2)
       = Some v_suspended.
Proof.
  destruct (suspend_all_or_nothing 5 "complaints" (BackOffice north_world [] 1))
    as [_ Hmiss].
  destruct Hmiss as (error & b1 & Hrun1 & Hw1 & Hs1 & Hq1).
  { simpl. rewrite Exists_exists. intros (d & Hin & Hd).
    repeat (apply elem_of_cons in Hin as [->|Hin]; [discriminate|]).
    inversion Hin. }
  destruct (suspend_all_or_nothing 8 "complaints" b1) as [Hhit _].
  destruct Hhit as (b2 & Hrun2 & Hs2 & _ & _ & _ & _ & _ & Hfind).
  { rewrite Hw1. simpl. right. left. reflexivity. }
  exists error, b1, b2. split; [exact Hrun1|]. split; [exact Hrun2|].
  split.
  - rewrite Hs2, Hs1, Hq1, Hw1. reflexivity.
  - rewrite (Hfind driver_bosco (UserRow 8 "+250700000008" "Bosco" active));
      [reflexivity|]. rewrite Hw1. reflexivity.
Defined.

(** ** The client's cancellation route *)


(** A pending offer of a trip outlives the cancellation of the trip by
    its client; a trip id beyond INTEGER is answered with the error of
    the database. *)
Example cancel_trip_route_keeps_the_offer :
  exists cancelled w',
    cancel_trip_route 3 10 None booked_world = (Success cancelled, w')
    /\ trip_cancellation_reason cancelled = Some "Cancelled by client"
    /\ status_of w' 1 = Some pending
    /\ cancel_trip_route 7 10 None booked_world
       = (AppError "Trip not found or unauthorized" 404, booked_world)
    /\ cancel_trip_route 3 99999999999 None booked_world
       = (ServerError numeric_value_out_of_range, booked_world).
Proof.
  do 2 eexists. split; [reflexivity|]. repeat split.
Qed.

(** The driver ends the trip between the two queries of the client's
    cancellation: the cancellation is answered with a server error and
    the trip stays completed. *)
Example cancel_trip_route_races_with_end :
  let w := with_trips (desk_world assigned_desk)
             {[ 10 := Trip 10 3 (Some 7) trip_in_progress None 8000 ]} in
  let ended := fun w => snd (end_trip_route 7 10 w) in
  cancel_trip_route_between ended 3 10 None w
  = (ServerError "Cannot cancel completed trip", ended w)
  /\ trip_state <$> trips (ended w) !! 10 = Some trip_completed.
Proof. split; reflexivity. Qed.

(** ** The registry of connections *)

(** X14: the registry holds one socket per user, and a disconnecting
    socket removes the entry of its user whichever socket the entry
    names.  A user who authenticates on a second socket is notified on
    that socket; when the first socket then disconnects, the user is
    notified nowhere, although the second socket is still connected and
    authenticated. *)
Theorem stale_disconnect_silences_the_user userId s1 s2 h :
  s1 <> s2 ->
  s2 <> "" ->
  let reconnected :=
    on_auth s2 userId (on_connection s2 (on_auth s1 userId (on_connection s1 h))) in
  notifyDriver userId reconnected = Some s2
  /\ notifyDriver userId (on_disconnect s1 reconnected) = None
  /\ s2 ∈ connected (on_disconnect s1 reconnected)
  /\ socket_userId (on_disconnect s1 reconnected) !! s2 = Some userId.
Proof.
  intros Hne Hs2 reconnected. unfold reconnected, notifyDriver. simpl.
  rewrite lookup_insert_eq.
  rewrite bool_decide_eq_false_2 by exact Hs2.
  split; [reflexivity|].
  rewrite lookup_insert_ne by congruence.
  rewrite lookup_delete_ne by congruence.
  rewrite lookup_insert_eq.
  rewrite lookup_delete_eq.
  split; [reflexivity|]. split.
  - set_solver.
  - rewrite lookup_delete_ne by congruence. apply lookup_insert_eq.
Qed.

Lemma stale_disconnect_silences_the_user_witness :
  let reconnected :=
    on_auth "tab-2" 7 (on_connection "tab-2"
       (on_auth "tab-1" 7 (on_connection "tab-1" (Hub ∅ ∅ ∅)))) in
  notifyDriver 7 reconnected = Some "tab-2"
  /\ notifyDriver 7 (on_disconnect "tab-1" reconnected) = None
  /\ "tab-2" ∈ connected (on_disconnect "tab-1" reconnected)
  /\ socket_userId (on_disconnect "tab-1" reconnected) !! "tab-2" = Some 7.
Proof.
  apply (stale_disconnect_silences_the_user 7 "tab-1" "tab-2" (Hub ∅ ∅ ∅));
    discriminate.
Defined.

(** ** Starting and ending a trip *)

Lemma findById_Some tripId w t :
  Trip.findById tripId w = Returned (Some t) ->
  trips w !! tripId = Some t
  /\ Exists (λ c, u_id c = trip_client_id t) (users w).
Proof.
  unfold Trip.findById. destruct (trips w !! tripId) as [t0|].
  - destruct (bool_decide _) eqn:Hc; [| discriminate].
    intros [= <-]. split; [reflexivity |]. apply bool_decide_eq_true_1 in Hc. exact Hc.
  - destruct (int4 tripId); discriminate.
Qed.

Lemma findById_stored tripId w t :
  trips w !! tripId = Some t ->
  Exists (λ c, u_id c = trip_client_id t) (users w) ->
  Trip.findById tripId w = Returned (Some t).
Proof.
  intros Ht Hc. unfold Trip.findById. rewrite Ht.
  rewrite bool_decide_eq_true_2; [reflexivity | exact Hc].
Qed.

(** What a successful cancellation by the route leaves in the store. *)
Lemma cancel_trip_route_success userId tripId reason w t1 w1 :
  cancel_trip_route userId tripId reason w = (Success t1, w1) ->
  exists t,
    Trip.findById tripId w = Returned (Some t)
    /\ trip_client_id t = userId
    /\ t1 = Trip (trip_id t) (trip_client_id t) (trip_driver_id t) trip_cancelled
              (Some (or_default reason "Cancelled by client")) (now w)
    /\ w1 = with_trips w (<[tripId := t1]> (trips w)).
Proof.
  unfold cancel_trip_route, cancel_trip_route_between.
  destruct (Trip.findById tripId w) as [[t|]|error] eqn:Hfind; [| discriminate..].
  destruct (findById_Some _ _ _ Hfind) as [Ht _].
  destruct (bool_decide (trip_client_id t = userId)) eqn:Hown; [| discriminate].
  apply bool_decide_eq_true_1 in Hown.
  destruct (bool_decide (trip_state t = trip_completed)
            || bool_decide (trip_state t = trip_cancelled)); [discriminate |].
  unfold cancelTrip. rewrite Ht.
  destruct (decide (trip_state t = trip_completed)); [discriminate |].
  intros [= <- <-]. exists t. repeat split; assumption.
Qed.

(** What a successful end of a trip by the route leaves in the store. *)
Lemma end_trip_route_success userId tripId w t1 w1 :
  end_trip_route userId tripId w = (Success t1, w1) ->
  exists t,
    Trip.findById tripId w = Returned (Some t)
    /\ trip_driver_id t = Some userId
    /\ trip_state t = trip_in_progress
    /\ t1 = set_trip_state trip_completed (now w) t
    /\ w1 = with_trips w (<[tripId := t1]> (trips w)).
Proof.
  unfold end_trip_route.
  destruct (Trip.findById tripId w) as [[t|]|error] eqn:Hfind; [| discriminate..].
  destruct (findById_Some _ _ _ Hfind) as [Ht _].
  destruct (bool_decide (trip_driver_id t = Some userId)) eqn:Hown; [| discriminate].
  apply bool_decide_eq_true_1 in Hown.
  destruct (bool_decide (trip_state t = trip_in_progress)) eqn:Hst; [| discriminate].
  apply bool_decide_eq_true_1 in Hst.
  unfold completeTrip. rewrite Ht.
  intros [= <- <-]. exists t. repeat split; assumption.
Qed.

(** Both start routes on a stored trip with the right passcode. *)
Lemma start_routes_stored w tripId driver t codes code :
  trips w !! tripId = Some t ->
  Exists (λ c, u_id c = trip_client_id t) (users w) ->
  trip_driver_id t = Some driver ->
  codes !! tripId = Some code ->
  code <> "" ->
  let t2 := set_trip_state trip_in_progress (now w) t in
  let k2 := TripDesk (with_trips w (<[tripId := t2]> (trips w))) codes in
  start_trip_route driver tripId (Some code) (TripDesk w codes)
  = (Success (Some t2), k2)
  /\ start_with_otp_route tripId (Some code) (TripDesk w codes) = (Success t2, k2).
Proof.
  intros Ht Hc Hd Hcode Hne. split.
  - unfold start_trip_route. simpl.
    rewrite bool_decide_eq_false_2 by exact Hne.
    rewrite (findById_stored _ _ _ Ht Hc).
    rewrite bool_decide_eq_true_2 by exact Hd.
    rewrite bool_decide_eq_true_2 by exact Hcode.
    unfold updateStatus. rewrite Ht. reflexivity.
  - unfold start_with_otp_route.
    rewrite bool_decide_eq_false_2 by exact Hne.
    unfold recordOTPVerification. simpl. rewrite Ht.
    rewrite bool_decide_eq_true_2 by exact Hcode. reflexivity.
Qed.

(** X19.  Neither start route reads the status of the trip: after the
    client's route has cancelled a trip, or the driver's route has ended
    it, the trip's driver starts it again with the trip's passcode by
    either route, and it reads [in_progress] (a cancelled trip still
    carrying its cancellation reason). *)
Theorem finished_trip_can_be_started_again
    (w w1 : world) (tripId driver : Z) (t1 : trip)
    (codes : gmap Z string) (code : string) :
  ((exists client reason,
      cancel_trip_route client tripId reason w = (Success t1, w1))
   \/ (exists d, end_trip_route d tripId w = (Success t1, w1))) ->
  trip_driver_id t1 = Some driver ->
  codes !! tripId = Some code ->
  code <> "" ->
  (trip_state t1 = trip_cancelled \/ trip_state t1 = trip_completed)
  /\ trips w1 !! tripId = Some t1
  /\ let t2 := set_trip_state trip_in_progress (now w1) t1 in
     let k2 := TripDesk (with_trips w1 (<[tripId := t2]> (trips w1))) codes in
     trip_state t2 = trip_in_progress
     /\ trip_cancellation_reason t2 = trip_cancellation_reason t1
     /\ start_trip_route driver tripId (Some code) (TripDesk w1 codes)
        = (Success (Some t2), k2)
     /\ start_with_otp_route tripId (Some code) (TripDesk w1 codes)
        = (Success t2, k2).
Proof.
  intros Hdone Hd Hcode Hne.
  assert (exists t, Trip.findById tripId w = Returned (Some t)
                    /\ trip_client_id t1 = trip_client_id t
                    /\ (trip_state t1 = trip_cancelled \/ trip_state t1 = trip_completed)
                    /\ w1 = with_trips w (<[tripId := t1]> (trips w)))
    as (t & Hfind & Hclient & Hstate & ->).
  { destruct Hdone as [(client & reason & Hrun) | (d & Hrun)].
    - apply cancel_trip_route_success in Hrun as (t & Hfind & _ & -> & ->).
      exists t. repeat split; [exact Hfind | left; reflexivity].
    - apply end_trip_route_success in Hrun as (t & Hfind & _ & _ & -> & ->).
      exists t. repeat split; [exact Hfind | right; reflexivity]. }
  destruct (findById_Some _ _ _ Hfind) as [_ Hc].
  assert (trips (with_trips w (<[tripId := t1]> (trips w))) !! tripId = Some t1) as Ht1.
  { simpl. apply lookup_insert_eq. }
  split; [exact Hstate |]. split; [exact Ht1 |].
  split; [reflexivity |]. split; [reflexivity |].
  apply start_routes_stored; try assumption.
  simpl. rewrite Hclient. exact Hc.
Qed.

Lemma finished_trip_can_be_started_again_witness :
  let w := desk_world assigned_desk in
  let t1 := Trip 10 3 (Some 7) trip_cancelled (Some "Cancelled by client") 9000 in
  let w1 := with_trips w (<[10 := t1]> (trips w)) in
  (trip_state t1 = trip_cancelled \/ trip_state t1 = trip_completed)
  /\ trips w1 !! 10 = Some t1
  /\ let t2 := set_trip_state trip_in_progress (now w1) t1 in
     let k2 := TripDesk (with_trips w1 (<[10 := t2]> (trips w1)))
                 (otp_code assigned_desk) in
     trip_state t2 = trip_in_progress
     /\ trip_cancellation_reason t2 = trip_cancellation_reason t1
     /\ start_trip_route 7 10 (Some "482913") (TripDesk w1 (otp_code assigned_desk))
        = (Success (Some t2), k2)
     /\ start_with_otp_route 10 (Some "482913") (TripDesk w1 (otp_code assigned_desk))
        = (Success t2, k2).
Proof.
  apply (finished_trip_can_be_started_again (desk_world assigned_desk)).
  - left. exists 3, None. reflexivity.
  - reflexivity.
  - reflexivity.
  - discriminate.
Defined.





(** The answers at the trip of [assigned_desk], and at a trip id beyond
    INTEGER. *)
Example wrong_passcode_answers :
  start_trip_route 7 10 (Some "000000") assigned_desk
  = (AppError "Invalid OTP" 400, assigned_desk)
  /\ start_with_otp_route 10 (Some "000000") assigned_desk
     = (ServerError "Invalid OTP or trip not found", assigned_desk)
  /\ start_trip_route 7 99999999999 (Some "482913") assigned_desk
     = (ServerError numeric_value_out_of_range, assigned_desk)
  /\ start_with_otp_route 99999999999 (Some "482913") assigned_desk
     = (ServerError numeric_value_out_of_range, assigned_desk).
Proof. repeat split. Qed.

(** ** The list of pending requests, as a whole *)

